(** * PDF Fusion: the merge engine and the ordered file list

    A shallow embedding of [services/pdfService.ts] (generateMergedPdf),
    [types.ts] and the list handlers of [App.tsx] (handleFileUpload,
    handleDragEnd, removeFile, handleMerge).

    Conventions of the embedding
    - JavaScript numbers that carry page geometry are IEEE 754 binary64
      values, Rocq's primitive [float]: [+], [-], [*], [/] and [<] are the
      operations of the language, a decimal literal denotes the nearest
      double, and [Math.min] follows ECMAScript.  Sizes in bytes are [Z].
    - The pdf-lib document is a record of pages and embedded images that the
      merge routine mutates; it lives in an explicit store next to the input
      array, and every routine is written in a small state-and-exception
      monad over that store.
    - What pdf-lib does with raw bytes (parsing a PDF, decoding an image,
      serialising a document) is an interface, [PdfLib]: the routine is
      verified for every implementation of it. *)

From Stdlib Require Import Floats.PrimFloat Uint63.
From Stdlib Require Import ZArith String Strings.Byte DecimalString Lia.
From Stdlib Require DecimalZ DecimalPos.
From stdpp Require Import list.

#[local] Set Warnings "-inexact-float".

Local Open Scope string_scope.
Local Open Scope list_scope.

(** ** types.ts *)

Module FileType.
Definition PDF : string := "application/pdf".
Definition PNG : string := "image/png".
Definition JPG : string := "image/jpeg".
Definition JPEG : string := "image/jpeg".
End FileType.

Definition bytes := list byte.

(** A browser [File]: [file_data] is what a FileReader delivers, [None] when
    the read fails (the reader's error event). *)
Record File := mkFile {
  file_name : string;
  file_type : string;
  file_size : Z;
  file_data : option bytes
}.

Record UploadedFile := mkUploadedFile {
  id : string;
  file : File;
  name : string;
  type : string;
  size : Z;
  previewUrl : option string
}.

Record ProcessingStatus := mkStatus {
  isProcessing : bool;
  message : string;
  error : option string
}.

(** ** The document model of pdf-lib *)

(** The JavaScript number of a whole count [n], for [0 <= n < 2^53]. *)
Definition pixels (n : Z) : float := of_uint63 (Uint63.of_Z n).

Record PDFImage := mkImage {
  img_width : float;
  img_height : float;
  img_stream : bytes
}.

(** What a page shows: content that came with a copied source page, or an
    image drawn by [drawImage]. *)
Inductive Operator :=
| SourceContent (stream : bytes)
| DrawImage (image : PDFImage) (x y width height : float).

Record PDFPage := mkPage {
  page_width : float;
  page_height : float;
  page_contents : list Operator
}.

Record PDFDocument := mkDoc {
  doc_pages : list PDFPage;
  doc_images : list PDFImage
}.

Module PageSizes.
Definition A4 : float * float := (595.28, 841.89)%float.
End PageSizes.

(** The byte-level half of pdf-lib.  A failure carries the message of the
    error the library throws; every operation sees the bytes only. *)
Class PdfLib := {
  parsePdf : bytes -> string + PDFDocument;
  decodePng : bytes -> string + PDFImage;
  decodeJpg : bytes -> string + PDFImage;
  serialize : PDFDocument -> string + bytes
}.

(** [Math.min(...values)] of ECMAScript: starting from +Infinity, a NaN
    among the values gives NaN at once, -0 is taken to be below +0, and
    otherwise a value replaces the lowest so far when it is less than it. *)
Module Math.

Definition isNegZero (x : float) : bool :=
  match classify x with FloatClass.NZero => true | _ => false end.

Definition isPosZero (x : float) : bool :=
  match classify x with FloatClass.PZero => true | _ => false end.

Fixpoint minFrom (lowest : float) (coerced : list float) : float :=
  match coerced with
  | [] => lowest
  | number :: rest =>
      if is_nan number then nan
      else
        let lowest1 :=
          if isNegZero number && isPosZero lowest then number else lowest in
        let lowest2 :=
          if (number <? lowest1)%float then number else lowest1 in
        minFrom lowest2 rest
  end.

Definition min (values : list float) : float := minFrom infinity values.

End Math.

(** ** Store, exceptions and the monad *)

(** Values a rejected promise or a [throw] can carry. *)
Inductive Thrown :=
| ReaderError                      (* the FileReader's error event *)
| PdfLibError (msg : string)       (* an Error raised inside pdf-lib *)
| TypeError.                       (* access through an undefined value *)

Record Store := mkStore {
  st_files : list UploadedFile;    (* the array passed as [files] *)
  st_mergedPdf : PDFDocument       (* the document under construction *)
}.

Definition M (A : Type) : Type := Store -> (Thrown + A) * Store.

Definition ret {A} (a : A) : M A := fun s => (inr a, s).
Definition throw {A} (e : Thrown) : M A := fun s => (inl e, s).
Definition bind {A B} (c : M A) (k : A -> M B) : M B :=
  fun s => match c s with
           | (inl e, s') => (inl e, s')
           | (inr a, s') => k a s'
           end.

Declare Scope merge_scope.
Delimit Scope merge_scope with merge.
Notation "x <- c ;; k" := (bind c (fun x => k))
  (at level 100, c at next level, right associativity) : merge_scope.
Notation "c ;;; k" := (bind c (fun _ => k))
  (at level 100, right associativity) : merge_scope.
Local Open Scope merge_scope.

Definition getFiles : M (list UploadedFile) := fun s => (inr (st_files s), s).
Definition getDoc : M PDFDocument := fun s => (inr (st_mergedPdf s), s).
Definition setDoc (d : PDFDocument) : M unit :=
  fun s => (inr tt, mkStore (st_files s) d).

Definition liftLib {A} (r : string + A) : M A :=
  match r with
  | inl msg => throw (PdfLibError msg)
  | inr a => ret a
  end.

(** [for (const x of xs) body] and [xs.forEach(body)]. *)
Fixpoint forOf {A} (xs : list A) (body : A -> M unit) : M unit :=
  match xs with
  | [] => ret tt
  | x :: xs' => body x ;;; forOf xs' body
  end.

Fixpoint mapM {A B} (f : A -> M B) (xs : list A) : M (list B) :=
  match xs with
  | [] => ret []
  | x :: xs' => y <- f x ;; ys <- mapM f xs' ;; ret (y :: ys)
  end.

(** ** pdf-lib operations used by the service *)

Section PdfService.
Context `{PdfLib}.

(** [PDFDocument.create()] *)
Definition create : M unit := setDoc (mkDoc [] []).

(** [PDFDocument.load(bytes)] *)
Definition load (buffer : bytes) : M PDFDocument := liftLib (parsePdf buffer).

(** [pdf.getPageIndices()] *)
Definition getPageIndices (pdf : PDFDocument) : list nat :=
  seq 0 (length (doc_pages pdf)).

(** [mergedPdf.copyPages(pdf, indices)]: a copy of the page at each index. *)
Definition copyPages (pdf : PDFDocument) (indices : list nat) : M (list PDFPage) :=
  mapM (fun i => match doc_pages pdf !! i with
                 | Some p => ret p
                 | None => throw TypeError
                 end) indices.

(** [mergedPdf.addPage(page)]: appends, and hands back the page, here its
    index in the document. *)
Definition addPage (page : PDFPage) : M nat :=
  d <- getDoc ;;
  setDoc (mkDoc (doc_pages d ++ [page]) (doc_images d)) ;;;
  ret (length (doc_pages d)).

(** [mergedPdf.addPage([w, h])]: a blank page of that size. *)
Definition addPageOfSize (sz : float * float) : M nat :=
  addPage (mkPage (fst sz) (snd sz) []).

Definition embed (r : string + PDFImage) : M PDFImage :=
  image <- liftLib r ;;
  d <- getDoc ;;
  setDoc (mkDoc (doc_pages d) (doc_images d ++ [image])) ;;;
  ret image.

Definition embedPng (buffer : bytes) : M PDFImage := embed (decodePng buffer).
Definition embedJpg (buffer : bytes) : M PDFImage := embed (decodeJpg buffer).

(** [page.getSize()] *)
Definition getSize (page : nat) : M (float * float) :=
  d <- getDoc ;;
  match doc_pages d !! page with
  | Some p => ret (page_width p, page_height p)
  | None => throw TypeError
  end.

(** [image.scale(factor)] *)
Definition scale (image : PDFImage) (factor : float) : float * float :=
  (img_width image * factor, img_height image * factor)%float.

(** [page.drawImage(image, {x, y, width, height})] *)
Definition drawImage (page : nat) (image : PDFImage) (x y width height : float)
    : M unit :=
  d <- getDoc ;;
  setDoc (mkDoc
            (alter (fun p => mkPage (page_width p) (page_height p)
                               (page_contents p ++ [DrawImage image x y width height]))
                   page (doc_pages d))
            (doc_images d)).

(** [mergedPdf.save()].  pdf-lib's [save(options)] takes [addDefaultPage]
    to be true when it is not given and begins with
    [if (addDefaultPage && this.getPageCount() === 0) this.addPage()];
    [addPage()] without an argument makes a blank page of [PageSizes.A4].
    The document is serialised after that. *)
Definition save : M bytes :=
  d <- getDoc ;;
  (if (length (doc_pages d) =? 0)%nat
   then addPageOfSize PageSizes.A4 ;;; ret tt
   else ret tt) ;;;
  d' <- getDoc ;;
  liftLib (serialize d').

(** ** services/pdfService.ts *)

Definition readFileAsArrayBuffer (f : File) : M bytes :=
  match file_data f with
  | Some buffer => ret buffer
  | None => throw ReaderError
  end.


(** The image branch after embedding: lines 42-69. *)
Definition placeImage (image : PDFImage) : M unit :=
  page <- addPageOfSize PageSizes.A4 ;;
  sz <- getSize page ;;
  let width := fst sz in
  let height := snd sz in
  let margin := 40%float in
  let maxWidth := (width - margin * 2)%float in
  let maxHeight := (height - margin * 2)%float in
  let imgDims := scale image 1 in
  let scaleWidth := (maxWidth / fst imgDims)%float in
  let scaleHeight := (maxHeight / snd imgDims)%float in
  let scale := Math.min [scaleWidth; scaleHeight; 1%float] in
  let displayWidth := (fst imgDims * scale)%float in
  let displayHeight := (snd imgDims * scale)%float in
  let x := ((width - displayWidth) / 2)%float in
  let y := ((height - displayHeight) / 2)%float in
  drawImage page image x y displayWidth displayHeight.

(** The body of the [for ... of files] loop. *)
Definition processFile (fileItem : UploadedFile) : M unit :=
  fileBuffer <- readFileAsArrayBuffer (file fileItem) ;;
  if (type fileItem =? FileType.PDF)%string then
    pdf <- load fileBuffer ;;
    copiedPages <- copyPages pdf (getPageIndices pdf) ;;
    forOf copiedPages (fun page => addPage page ;;; ret tt)
  else if ((type fileItem =? FileType.PNG) || (type fileItem =? FileType.JPG)
           || (type fileItem =? FileType.JPEG))%string then
    image <- (if (type fileItem =? FileType.PNG)%string
              then embedPng fileBuffer
              else embedJpg fileBuffer) ;;
    placeImage image
  else
    ret tt.

Definition mergeBody : M bytes :=
  create ;;;
  files <- getFiles ;;
  forOf files processFile ;;;
  pdfBytes <- save ;;
  ret pdfBytes.

(** [generateMergedPdf(files)]: what the promise settles to (a thrown value
    or the bytes), and the store the call leaves behind. *)
Definition generateMergedPdf (files : list UploadedFile) : (Thrown + bytes) * Store :=
  mergeBody (mkStore files (mkDoc [] [])).

End PdfService.

(** ** App.tsx: the ordered file list *)

(** [array.findIndex(p)]: the first index whose element satisfies [p],
    [-1] when there is none. *)
Fixpoint findIndexFrom {T} (p : T -> bool) (i : Z) (array : list T) : Z :=
  match array with
  | [] => (-1)%Z
  | x :: rest => if p x then i else findIndexFrom p (i + 1)%Z rest
  end.

Definition findIndex {T} (p : T -> bool) (array : list T) : Z :=
  findIndexFrom p 0%Z array.

Section ArrayMove.
Context {T : Type}.

(** How [Array.prototype.splice] reads its [start] argument: a negative
    start counts from the end, and the result is clamped to [0, length]. *)
Definition spliceStart (len : nat) (start : Z) : nat :=
  if (start <? 0)%Z
  then Z.to_nat (Z.max (Z.of_nat len + start) 0)
  else Z.to_nat (Z.min start (Z.of_nat len)).

(** [array.splice(start, 1)]: the removed elements, and the array after. *)
Definition spliceRemoveOne (array : list T) (start : Z) : list T * list T :=
  let i := spliceStart (length array) start in
  (take 1 (drop i array), delete i array).

(** [array.splice(start, 0, item)]: the array after the insertion. *)
Definition spliceInsert (array : list T) (start : Z) (item : T) : list T :=
  let i := spliceStart (length array) start in
  take i array ++ item :: drop i array.

(** [arrayMove] of @dnd-kit/sortable, as the library publishes it:
<<
    const newArray = array.slice();
    newArray.splice(to < 0 ? newArray.length + to : to, 0,
                    newArray.splice(from, 1)[0]);
    return newArray;
>>
    The target index is computed before the inner splice runs.  [None]
    stands for the one outcome that is not a list of [T]: nothing was
    removed (the start index is past the last element, as it is on an empty
    array) and JavaScript inserts [undefined]. *)
Definition arrayMove (array : list T) (from to : Z) : option (list T) :=
  let newArray := array in
  let target := if (to <? 0)%Z then (Z.of_nat (length newArray) + to)%Z else to in
  let '(removed, newArray') := spliceRemoveOne newArray from in
  match head removed with
  | Some item => Some (spliceInsert newArray' target item)
  | None => None
  end.

End ArrayMove.

Record DragEndEvent := mkDragEnd {
  active_id : string;
  over_id : option string       (* [over] is null when dropped outside *)
}.

Section FileList.
(** The browser services the upload handler calls: the [i]-th
    [crypto.randomUUID()] of one upload event, and [URL.createObjectURL]. *)
Variable randomUUID : nat -> string.
Variable createObjectURL : File -> string.

(** [handleFileUpload]: the state update [prev => [...prev, ...newFiles]];
    [targetFiles] is [event.target.files]. *)
Definition newFiles (fileList : list File) : list UploadedFile :=
  imap (fun i f =>
          {| id := randomUUID i;
             file := f;
             name := file_name f;
             type := file_type f;
             size := file_size f;
             previewUrl := if String.prefix "image/" (file_type f)
                           then Some (createObjectURL f) else None |})
       fileList.

Definition handleFileUpload (targetFiles : option (list File))
    (prev : list UploadedFile) : list UploadedFile :=
  match targetFiles with
  | Some fileList => prev ++ newFiles fileList
  | None => prev
  end.

End FileList.

(** [handleDragEnd]: the next value of [files]; [None] as for [arrayMove]. *)
Definition handleDragEnd (event : DragEndEvent) (items : list UploadedFile)
    : option (list UploadedFile) :=
  match over_id event with
  | Some over =>
      if negb (active_id event =? over)%string then
        let oldIndex := findIndex (fun item => (id item =? active_id event)%string) items in
        let newIndex := findIndex (fun item => (id item =? over)%string) items in
        arrayMove items oldIndex newIndex
      else Some items
  | None => Some items
  end.

(** [removeFile]: the state update [prev => prev.filter(f => f.id !== id)]. *)
Definition removeFile (id0 : string) (prev : list UploadedFile) : list UploadedFile :=
  List.filter (fun f => negb (id f =? id0)%string) prev.

(** ** App.tsx: handleMerge *)

Record AppState := mkApp {
  app_files : list UploadedFile;
  app_status : ProcessingStatus
}.

(** What [handleMerge] does to the outside, in order. *)
Inductive Effect :=
| SetStatus (s : ProcessingStatus)
| Delay (ms : Z)
| CallGenerateMergedPdf (files : list UploadedFile)
| CallDownloadPdf (data : bytes) (filename : string)
| ConsoleError (e : Thrown)
| SetTimeout (ms : Z) (s : ProcessingStatus).

Section HandleMerge.
Context `{PdfLib}.

Definition downloadName (now : Z) : string :=
  ("fusion_documento_" ++ NilZero.string_of_int (Z.to_int now) ++ ".pdf")%string.

(** [handleMerge], with [now] the value of [new Date().getTime()].  The
    result is the state after the handler and its effects in order; the DOM
    calls of [downloadPdf] are taken not to throw. *)
Definition handleMerge (now : Z) (st : AppState) : AppState * list Effect :=
  let files := app_files st in
  if (length files =? 0)%nat then (st, [])
  else
    let processing := mkStatus true "Procesando documentos e imágenes..." None in
    match fst (generateMergedPdf files) with
    | inr pdfBytes =>
        let finishing := mkStatus true "Finalizando archivo..." None in
        let done := mkStatus false "¡Listo! Tu PDF se ha descargado." None in
        (mkApp files done,
         [SetStatus processing; Delay 100; CallGenerateMergedPdf files;
          SetStatus finishing; CallDownloadPdf pdfBytes (downloadName now);
          SetStatus done; SetTimeout 5000 (mkStatus false "" None)])
    | inl e =>
        let failed := mkStatus false ""
          (Some "Hubo un error al crear el PDF. Asegúrate de que los archivos no estén dañados.") in
        (mkApp files failed,
         [SetStatus processing; Delay 100; CallGenerateMergedPdf files;
          ConsoleError e; SetStatus failed])
    end.

End HandleMerge.

(** * Outcomes

    Closed forms of what the routines above compute; the lemmas of the
    verification part relate each of them to the monadic code. *)

Section Outcomes.
Context `{PdfLib}.

(** The page [placeImage] builds for an image: lines 43-69 as a value. *)
Definition imagePage (image : PDFImage) : PDFPage :=
  let width := fst PageSizes.A4 in
  let height := snd PageSizes.A4 in
  let maxWidth := (width - 40 * 2)%float in
  let maxHeight := (height - 40 * 2)%float in
  let imgDims := scale image 1 in
  let factor :=
    Math.min [(maxWidth / fst imgDims)%float; (maxHeight / snd imgDims)%float;
              1%float] in
  let displayWidth := (fst imgDims * factor)%float in
  let displayHeight := (snd imgDims * factor)%float in
  mkPage width height
    [DrawImage image ((width - displayWidth) / 2)%float
       ((height - displayHeight) / 2)%float displayWidth displayHeight].

(** The blank page [save] adds to a document without pages, and the
    document [save] serialises. *)
Definition blankPage : PDFPage :=
  mkPage (fst PageSizes.A4) (snd PageSizes.A4) [].

Definition withDefaultPage (d : PDFDocument) : PDFDocument :=
  match doc_pages d with
  | [] => mkDoc [blankPage] (doc_images d)
  | _ :: _ => d
  end.

(** What the library makes of the bytes of a file of declared type [ty]:
    [None] when the type is none of the three the loop looks at. *)
Inductive Decoded :=
| DecodedPdf (pdf : PDFDocument)
| DecodedImage (image : PDFImage).

Definition decodeAs (ty : string) (buffer : bytes) : option (string + Decoded) :=
  if (ty =? FileType.PDF)%string then
    Some (match parsePdf buffer with inl m => inl m | inr pdf => inr (DecodedPdf pdf) end)
  else if ((ty =? FileType.PNG) || (ty =? FileType.JPG) || (ty =? FileType.JPEG))%string then
    Some (match (if (ty =? FileType.PNG)%string then decodePng buffer else decodeJpg buffer) with
          | inl m => inl m
          | inr image => inr (DecodedImage image)
          end)
  else None.

(** The effect of one loop iteration on the document. *)
Definition fileOutcome (fileItem : UploadedFile) (d : PDFDocument) : Thrown + PDFDocument :=
  match file_data (file fileItem) with
  | None => inl ReaderError
  | Some buffer =>
      match decodeAs (type fileItem) buffer with
      | None => inr d
      | Some (inl m) => inl (PdfLibError m)
      | Some (inr (DecodedPdf pdf)) =>
          inr (mkDoc (doc_pages d ++ doc_pages pdf) (doc_images d))
      | Some (inr (DecodedImage image)) =>
          inr (mkDoc (doc_pages d ++ [imagePage image]) (doc_images d ++ [image]))
      end
  end.

(** The loop over [files]: the value thrown (if any) and the document at
    that point. *)
Fixpoint loopOutcome (files : list UploadedFile) (d : PDFDocument)
    : option Thrown * PDFDocument :=
  match files with
  | [] => (None, d)
  | fileItem :: rest =>
      match fileOutcome fileItem d with
      | inl e => (Some e, d)
      | inr d' => loopOutcome rest d'
      end
  end.

(** What [save] settles to for a document. *)
Definition saved (d : PDFDocument) : Thrown + bytes :=
  match serialize d with
  | inl m => inl (PdfLibError m)
  | inr pdfBytes => inr pdfBytes
  end.

(** The source document of a record, when its bytes can be read and parse. *)
Definition sourcePdf (fileItem : UploadedFile) : option PDFDocument :=
  match file_data (file fileItem) with
  | Some buffer =>
      match parsePdf buffer with
      | inr pdf => Some pdf
      | inl _ => None
      end
  | None => None
  end.

Definition sourcePages (fileItem : UploadedFile) : list PDFPage :=
  match sourcePdf fileItem with
  | Some pdf => doc_pages pdf
  | None => []
  end.

(** A record declared as PDF whose bytes parse as one. *)
Definition validPdf (fileItem : UploadedFile) : Prop :=
  type fileItem = FileType.PDF /\ is_Some (sourcePdf fileItem).

(** A record the loop gets past: readable, and either of a type the loop
    ignores or decoded by the library without error. *)
Definition processable (fileItem : UploadedFile) : Prop :=
  exists buffer, file_data (file fileItem) = Some buffer
    /\ forall m, decodeAs (type fileItem) buffer <> Some (inl m).

End Outcomes.

(** ** What one record adds *)

Section Contributions.
Context `{PdfLib}.

(** The pages a record adds to the document when the loop gets past it:
    the pages of its PDF, the one page of its image, or none. *)
Definition pagesOf (fileItem : UploadedFile) : list PDFPage :=
  match file_data (file fileItem) with
  | Some buffer =>
      match decodeAs (type fileItem) buffer with
      | Some (inr (DecodedPdf pdf)) => doc_pages pdf
      | Some (inr (DecodedImage image)) => [imagePage image]
      | _ => []
      end
  | None => []
  end.

(** The images a record adds to the document's embedded images. *)
Definition imagesOf (fileItem : UploadedFile) : list PDFImage :=
  match file_data (file fileItem) with
  | Some buffer =>
      match decodeAs (type fileItem) buffer with
      | Some (inr (DecodedImage image)) => [image]
      | _ => []
      end
  | None => []
  end.

End Contributions.

(** What lets an image side of [n] whole pixels go unscaled in a free
    length [free]: the ratio of [free] to it is a number above 1, and
    multiplying [n] by 1 twice gives [n] back. *)
Definition fitsUnscaled (free : float) (n : Z) : Prop :=
  is_nan (free / (pixels n * 1))%float = false
  /\ (1 <? free / (pixels n * 1))%float = true
  /\ (pixels n * 1 * 1)%float = pixels n.

(** Two records with the same declared type and the same bytes. *)
Definition sameInput (f g : UploadedFile) : Prop :=
  type f = type g /\ file_data (file f) = file_data (file g).

(** The same record under another name. *)
Definition rename (g : string -> string) (fileItem : UploadedFile) : UploadedFile :=
  {| id := id fileItem;
     file := {| file_name := g (file_name (file fileItem));
                file_type := file_type (file fileItem);
                file_size := file_size (file fileItem);
                file_data := file_data (file fileItem) |};
     name := g (name fileItem);
     type := type fileItem;
     size := size fileItem;
     previewUrl := previewUrl fileItem |}.

(** * A small implementation of the byte interface

    Enough of a library to run the routines on concrete inputs: a PDF is the
    byte [%] followed by one byte per page, an image is a magic byte (0x89
    for PNG, 0xff for JPEG) followed by its width and height in hundreds of
    pixels, and a document serialises to [%] and one [P] per page. *)

Module Sample.

Definition pageOf (c : byte) : PDFPage := mkPage 612 792 [SourceContent [c]].

Definition readPdf (buffer : bytes) : string + PDFDocument :=
  match buffer with
  | x25 :: rest => inr (mkDoc (pageOf <$> rest) [])
  | _ => inl "No PDF header found"
  end.

Definition readImage (magic : byte) (complaint : string) (buffer : bytes)
    : string + PDFImage :=
  match buffer with
  | m :: w :: h :: _ =>
      if Byte.eqb m magic
      then inr (mkImage (pixels (100 * Z.of_N (Byte.to_N w)))
                        (pixels (100 * Z.of_N (Byte.to_N h))) buffer)
      else inl complaint
  | _ => inl complaint
  end.

Definition dump (d : PDFDocument) : string + bytes :=
  inr (x25 :: ((fun _ => x50) <$> doc_pages d)).

Definition lib : PdfLib :=
  {| parsePdf := readPdf;
     decodePng := readImage x89 "The input is not a PNG file!";
     decodeJpg := readImage xff "SOI not found in JPEG";
     serialize := dump |}.

Definition upload (i n ty : string) (data : option bytes) : UploadedFile :=
  {| id := i;
     file := mkFile n ty (Z.of_nat (length (default [] data))) data;
     name := n;
     type := ty;
     size := Z.of_nat (length (default [] data));
     previewUrl := None |}.

(** A.pdf with two pages, B.pdf and C.pdf with one each, a 1200 x 1600 PNG,
    a file declared as PDF whose bytes are not one, and a text file. *)
Definition A : UploadedFile := upload "id-A" "A.pdf" FileType.PDF (Some [x25; x01; x02]).
Definition B : UploadedFile := upload "id-B" "B.pdf" FileType.PDF (Some [x25; x03]).
Definition photo : UploadedFile := upload "id-P" "photo.png" FileType.PNG (Some [x89; x0c; x10]).
Definition C : UploadedFile := upload "id-C" "C.pdf" FileType.PDF (Some [x25; x04]).
Definition photoImage : PDFImage := mkImage 1200 1600 [x89; x0c; x10].
Definition corrupt (n : string) : UploadedFile := upload "id-X" n FileType.PDF (Some [x00; x01]).
Definition notes : UploadedFile := upload "id-N" "notes.txt" "text/plain" (Some [x68; x69]).

(** A 100 x 200 image, a file that cannot be read, and an app state that
    lists B.pdf. *)
Definition icon : PDFImage := mkImage 100 200 [x89; x01; x02].
Definition unreadable : UploadedFile := upload "id-U" "lost.txt" "text/plain" None.
Definition listingB : AppState := mkApp [B] (mkStatus false "" None).
Definition blank : Store := mkStore [] (mkDoc [] []).

(** A PDF without pages, and a 100 x 1400 PNG. *)
Definition empty : UploadedFile := upload "id-E" "empty.pdf" FileType.PDF (Some [x25]).

End Sample.

(** * Verification *)

(** ** The loop body, one file at a time *)

Section MergeFacts.
Context `{PdfLib}.

Lemma store_eta (s : Store) : mkStore (st_files s) (st_mergedPdf s) = s.
Proof. by destruct s. Qed.

Lemma doc_eta (d : PDFDocument) : mkDoc (doc_pages d) (doc_images d) = d.
Proof. by destruct d. Qed.

Lemma forOf_app {A} (xs ys : list A) (body : A -> M unit) (s : Store) :
  forOf (xs ++ ys) body s
  = match forOf xs body s with
    | (inl e, s') => (inl e, s')
    | (inr _, s') => forOf ys body s'
    end.
Proof.
  revert s; induction xs as [|x xs IH]; intros s; simpl; [done|].
  unfold bind. destruct (body x s) as [[e|[]] s1]; [done|]. apply IH.
Qed.

(** Reading the pages of [l] at the indices of a suffix gives the suffix. *)
Lemma mapM_lookup_suffix (s : Store) (suffix prefix : list PDFPage) :
  mapM (fun i => match (prefix ++ suffix) !! i with
                 | Some p => ret p
                 | None => throw TypeError
                 end)
       (seq (length prefix) (length suffix)) s
  = (inr suffix, s).
Proof.
  revert prefix; induction suffix as [|p suffix IH]; intros prefix; simpl; [done|].
  unfold bind at 1. rewrite list_lookup_middle by done. unfold ret at 1.
  unfold bind at 1.
  specialize (IH (prefix ++ [p])).
  rewrite <- app_assoc, length_app in IH. simpl in IH.
  replace (length prefix + 1) with (S (length prefix)) in IH by lia.
  by rewrite IH.
Qed.

Lemma copyPages_all (pdf : PDFDocument) (s : Store) :
  copyPages pdf (getPageIndices pdf) s = (inr (doc_pages pdf), s).
Proof. apply (mapM_lookup_suffix s (doc_pages pdf) []). Qed.

Lemma addPage_each (pages : list PDFPage) (s : Store) :
  forOf pages (fun page => addPage page ;;; ret tt) s
  = (inr tt, mkStore (st_files s)
               (mkDoc (doc_pages (st_mergedPdf s) ++ pages)
                      (doc_images (st_mergedPdf s)))).
Proof.
  revert s; induction pages as [|p pages IH]; intros s; simpl.
  - by rewrite app_nil_r, doc_eta, store_eta.
  - unfold bind at 1. unfold addPage, bind, getDoc, setDoc, ret; simpl.
    rewrite IH; simpl. by rewrite <- app_assoc.
Qed.

Lemma placeImage_spec (image : PDFImage) (s : Store) :
  placeImage image s
  = (inr tt, mkStore (st_files s)
               (mkDoc (doc_pages (st_mergedPdf s) ++ [imagePage image])
                      (doc_images (st_mergedPdf s)))).
Proof.
  unfold placeImage, addPageOfSize, addPage, getSize, drawImage.
  unfold bind, getDoc, setDoc, ret; simpl.
  rewrite list_lookup_middle by done; simpl.
  replace (length (doc_pages (st_mergedPdf s)))
    with (length (doc_pages (st_mergedPdf s)) + 0) by lia.
  by rewrite alter_app_r.
Qed.

Lemma processFile_spec (fileItem : UploadedFile) (s : Store) :
  processFile fileItem s
  = match fileOutcome fileItem (st_mergedPdf s) with
    | inl e => (inl e, s)
    | inr d => (inr tt, mkStore (st_files s) d)
    end.
Proof.
  unfold processFile, fileOutcome, decodeAs, readFileAsArrayBuffer.
  destruct (file_data (file fileItem)) as [buffer|]; [|done].
  unfold bind at 1; unfold ret at 1.
  destruct (type fileItem =? FileType.PDF)%string.
  - unfold load, bind at 1. destruct (parsePdf buffer) as [m|pdf]; [done|]. simpl.
    unfold bind at 1. rewrite copyPages_all. apply addPage_each.
  - destruct ((type fileItem =? FileType.PNG) || (type fileItem =? FileType.JPG)
              || (type fileItem =? FileType.JPEG))%string.
    + unfold bind at 1.
      assert (Hembed : forall r,
        embed r s = match r with
                    | inl m => (inl (PdfLibError m), s)
                    | inr image => (inr image,
                        mkStore (st_files s)
                          (mkDoc (doc_pages (st_mergedPdf s))
                                 (doc_images (st_mergedPdf s) ++ [image])))
                    end).
      { by intros [m|image]. }
      unfold embedPng, embedJpg.
      destruct (type fileItem =? FileType.PNG)%string; rewrite Hembed.
      * destruct (decodePng buffer); [done|]. by rewrite placeImage_spec.
      * destruct (decodeJpg buffer); [done|]. by rewrite placeImage_spec.
    + by unfold ret; rewrite store_eta.
Qed.

End MergeFacts.

(** ** The whole merge *)

Section MergeTheorems.
Context `{PdfLib}.

Lemma loop_spec (files : list UploadedFile) (s : Store) :
  forOf files processFile s
  = (match fst (loopOutcome files (st_mergedPdf s)) with
     | Some e => inl e
     | None => inr tt
     end,
     mkStore (st_files s) (snd (loopOutcome files (st_mergedPdf s)))).
Proof.
  revert s; induction files as [|f files IH]; intros s; simpl.
  - by rewrite store_eta.
  - unfold bind. rewrite processFile_spec.
    destruct (fileOutcome f (st_mergedPdf s)) as [e|d]; simpl.
    + by rewrite store_eta.
    + by rewrite IH.
Qed.

(** [save] on a store: the default page first, then the serialisation. *)
Lemma save_spec (s : Store) :
  save s
  = (saved (withDefaultPage (st_mergedPdf s)),
     mkStore (st_files s) (withDefaultPage (st_mergedPdf s))).
Proof.
  destruct s as [files [pages images]].
  unfold save, saved, withDefaultPage, addPageOfSize, addPage.
  unfold bind, getDoc, setDoc, liftLib, ret, throw; simpl.
  destruct pages as [|p pages]; simpl.
  - by destruct (serialize _).
  - by destruct (serialize _).
Qed.

Lemma generateMergedPdf_spec (files : list UploadedFile) :
  generateMergedPdf files
  = match loopOutcome files (mkDoc [] []) with
    | (Some e, d) => (inl e, mkStore files d)
    | (None, d) => (saved (withDefaultPage d), mkStore files (withDefaultPage d))
    end.
Proof.
  unfold generateMergedPdf, mergeBody, create.
  unfold bind at 1; simpl. unfold bind at 1; simpl. unfold bind at 1.
  rewrite loop_spec; simpl.
  destruct (loopOutcome files (mkDoc [] [])) as [[e|] d]; simpl; [done|].
  unfold bind at 1. rewrite save_spec; simpl.
  destruct (saved (withDefaultPage d)); reflexivity.
Qed.

Lemma withDefaultPage_cons (d : PDFDocument) :
  doc_pages d <> [] -> withDefaultPage d = d.
Proof. unfold withDefaultPage. by destruct (doc_pages d). Qed.

Lemma withDefaultPage_pages (d : PDFDocument) :
  doc_pages (withDefaultPage d)
  = match doc_pages d with [] => [blankPage] | _ :: _ => doc_pages d end.
Proof. by destruct d as [[|p pages] images]. Qed.

Lemma withDefaultPage_images (d : PDFDocument) :
  doc_images (withDefaultPage d) = doc_images d.
Proof. by destruct d as [[|p pages] images]. Qed.

Lemma loopOutcome_app (l1 l2 : list UploadedFile) (d : PDFDocument) :
  loopOutcome (l1 ++ l2) d
  = match loopOutcome l1 d with
    | (Some e, d') => (Some e, d')
    | (None, d') => loopOutcome l2 d'
    end.
Proof.
  revert d; induction l1 as [|f l1 IH]; intros d; simpl; [done|].
  destruct (fileOutcome f d); [done|apply IH].
Qed.

Lemma fileOutcome_validPdf (f : UploadedFile) (d : PDFDocument) :
  validPdf f ->
  fileOutcome f d = inr (mkDoc (doc_pages d ++ sourcePages f) (doc_images d)).
Proof.
  intros [Hty [pdf Hpdf]]. unfold sourcePages. rewrite Hpdf.
  unfold sourcePdf in Hpdf. unfold fileOutcome, decodeAs. rewrite Hty; simpl.
  destruct (file_data (file f)) as [buffer|]; [|done].
  destruct (parsePdf buffer); by simplify_eq.
Qed.

Lemma loopOutcome_pdfs (files : list UploadedFile) (d : PDFDocument) :
  Forall validPdf files ->
  loopOutcome files d
  = (None, mkDoc (doc_pages d ++ concat (sourcePages <$> files)) (doc_images d)).
Proof.
  intros Hall; revert d; induction Hall as [|f files Hf _ IH]; intros d; simpl.
  - by rewrite app_nil_r, doc_eta.
  - rewrite fileOutcome_validPdf by done. rewrite IH; simpl.
    by rewrite <- app_assoc.
Qed.

Lemma fileOutcome_processable (f : UploadedFile) (d : PDFDocument) :
  processable f -> exists d', fileOutcome f d = inr d'.
Proof.
  intros (buffer & Hdata & Hok). unfold fileOutcome. rewrite Hdata.
  destruct (decodeAs (type f) buffer) as [[m|[pdf|image]]|]; eauto.
  by destruct (Hok m).
Qed.

Lemma loopOutcome_processable (files : list UploadedFile) (d : PDFDocument) :
  Forall processable files -> exists d', loopOutcome files d = (None, d').
Proof.
  intros Hall; revert d; induction Hall as [|f files Hf _ IH]; intros d; simpl.
  - eauto.
  - destruct (fileOutcome_processable f d Hf) as [d' ->]. apply IH.
Qed.

Lemma fileOutcome_rename (g : string -> string) (f : UploadedFile) (d : PDFDocument) :
  fileOutcome (rename g f) d = fileOutcome f d.
Proof. reflexivity. Qed.

Lemma loopOutcome_rename (g : string -> string) (files : list UploadedFile)
    (d : PDFDocument) :
  loopOutcome (rename g <$> files) d = loopOutcome files d.
Proof.
  revert d; induction files as [|f files IH]; intros d; simpl; [done|].
  rewrite fileOutcome_rename. destruct (fileOutcome f d); [done|apply IH].
Qed.

Lemma length_concat_fmap {A B} (g : A -> list B) (l : list A) :
  length (concat (g <$> l)) = sum_list (length <$> (g <$> l)).
Proof.
  induction l as [|x l IH]; csimpl; [done|]. by rewrite length_app, IH.
Qed.

(** C1, as the code has it.  Merging PDFs only: when every record of the
    list is declared as PDF and its bytes parse as one, and the inputs have
    at least one page between them, the document that [generateMergedPdf]
    builds and serialises holds the pages of the inputs, concatenated in
    list order with each input's own page order kept, and its page count is
    the sum of the inputs' page counts (an input without pages adds
    nothing).  When no input has a page, the document holds one page, the
    blank A4 page that [save] adds.  The value returned is the serialisation
    of the document. *)
Theorem merge_pdfs_concatenates (files : list UploadedFile) :
  files <> [] ->
  Forall validPdf files ->
  let merged := st_mergedPdf (snd (generateMergedPdf files)) in
  let pages := concat (sourcePages <$> files) in
  (pages <> [] ->
     doc_pages merged = pages
     /\ length (doc_pages merged) = sum_list (length <$> (sourcePages <$> files)))
  /\ (pages = [] -> doc_pages merged = [blankPage])
  /\ fst (generateMergedPdf files) = saved merged.
Proof.
  intros _ Hall merged pages. subst merged pages.
  rewrite generateMergedPdf_spec, loopOutcome_pdfs by done; simpl.
  rewrite withDefaultPage_pages; simpl.
  split; [|split; [|done]].
  - intros Hne. destruct (concat (sourcePages <$> files)) eqn:Hpages; [done|].
    split; [done|]. by rewrite <- Hpages, length_concat_fmap.
  - by intros ->.
Qed.


(** C3, as the code has it.  The merge of the empty list raises nothing of
    its own: the loop adds no page, [save] gives the document its blank
    default page, and the call settles to whatever serialising that
    one-page document gives. *)
Theorem merge_empty_serialises :
  generateMergedPdf []
  = (saved (mkDoc [blankPage] []), mkStore [] (mkDoc [blankPage] [])).
Proof. by rewrite generateMergedPdf_spec. Qed.

Lemma fileOutcome_other_type (f : UploadedFile) (buffer : bytes) (d : PDFDocument) :
  file_data (file f) = Some buffer ->
  type f <> FileType.PDF -> type f <> FileType.PNG -> type f <> FileType.JPEG ->
  fileOutcome f d = inr d.
Proof.
  intros Hdata Hpdf Hpng Hjpeg. unfold fileOutcome, decodeAs. rewrite Hdata.
  apply String.eqb_neq in Hpdf. apply String.eqb_neq in Hpng.
  apply String.eqb_neq in Hjpeg.
  unfold FileType.JPG, FileType.JPEG in *. by rewrite Hpdf, Hpng, Hjpeg.
Qed.

(** C4, as the code has it.  A readable record whose declared type is none
    of application/pdf, image/png, image/jpeg is passed over: the merge
    settles to the same value, and builds the same document, as for the
    list without that record. *)
Theorem merge_skips_other_types (l1 l2 : list UploadedFile) (f : UploadedFile)
    (buffer : bytes) :
  file_data (file f) = Some buffer ->
  type f <> FileType.PDF -> type f <> FileType.PNG -> type f <> FileType.JPEG ->
  fst (generateMergedPdf (l1 ++ f :: l2)) = fst (generateMergedPdf (l1 ++ l2))
  /\ st_mergedPdf (snd (generateMergedPdf (l1 ++ f :: l2)))
     = st_mergedPdf (snd (generateMergedPdf (l1 ++ l2))).
Proof.
  intros Hdata Hpdf Hpng Hjpeg.
  assert (Hloop : forall d, loopOutcome (l1 ++ f :: l2) d = loopOutcome (l1 ++ l2) d).
  { intros d. rewrite !loopOutcome_app.
    destruct (loopOutcome l1 d) as [[e|] d']; [done|]. simpl.
    by rewrite (fileOutcome_other_type f buffer). }
  rewrite !generateMergedPdf_spec, Hloop.
  by destruct (loopOutcome (l1 ++ l2) (mkDoc [] [])) as [[e|] d].
Qed.

(** C5, as the code has it.  When the records before [f] get through the
    loop and the library rejects the bytes of [f] for its declared type with
    message [m], the merge settles to that library error and to no bytes,
    whatever follows [f] in the list.  The error is the library's own: the
    same value is thrown when every record of the list is given another
    name. *)
Theorem merge_aborts_with_library_error (l1 l2 : list UploadedFile)
    (f : UploadedFile) (buffer : bytes) (m : string) :
  Forall processable l1 ->
  file_data (file f) = Some buffer ->
  decodeAs (type f) buffer = Some (inl m) ->
  fst (generateMergedPdf (l1 ++ f :: l2)) = inl (PdfLibError m)
  /\ forall g : string -> string,
       fst (generateMergedPdf (rename g <$> (l1 ++ f :: l2))) = inl (PdfLibError m).
Proof.
  intros Hl1 Hdata Hbad.
  assert (Hloop : fst (loopOutcome (l1 ++ f :: l2) (mkDoc [] [])) = Some (PdfLibError m)).
  { rewrite loopOutcome_app.
    destruct (loopOutcome_processable l1 (mkDoc [] []) Hl1) as [d ->]. simpl.
    unfold fileOutcome. by rewrite Hdata, Hbad. }
  split; [|intros g]; rewrite generateMergedPdf_spec, ?loopOutcome_rename;
    destruct (loopOutcome (l1 ++ f :: l2) (mkDoc [] [])) as [[e|] d];
    simpl in *; congruence.
Qed.

(** C8.  The array handed to [generateMergedPdf] is the same list of the
    same records when the call settles, whether it returned bytes or threw:
    the routine writes to its own document only. *)
Theorem merge_leaves_files_unchanged (files : list UploadedFile) :
  st_files (snd (generateMergedPdf files)) = files.
Proof.
  rewrite generateMergedPdf_spec.
  by destruct (loopOutcome files (mkDoc [] [])) as [[e|] d].
Qed.

End MergeTheorems.

(** ** Placing an image *)

Local Open Scope float_scope.

Section MathMinFacts.


(** When both ratios are numbers above 1, [Math.min] gives 1. *)
Lemma Math_min_one (a b : float) :
  is_nan a = false -> (1 <? a) = true ->
  is_nan b = false -> (1 <? b) = true ->
  Math.min [a; b; 1] = 1.
Proof.
  intros Hna Ha Hnb Hb. unfold Math.min. simpl. rewrite Hna, Hnb.
  change (is_nan 1) with false. change (Math.isNegZero 1) with false.
  change (Math.isPosZero infinity) with false.
  change (1 <? infinity) with true in *.
  rewrite !andb_false_r. simpl.
  destruct (a <? infinity);
    match goal with
    | |- context [Math.isNegZero ?x && Math.isPosZero ?y] =>
        destruct (Math.isNegZero x && Math.isPosZero y)
    end;
    match goal with
    | |- context [if (b <? ?y) then _ else _] => destruct (b <? y)
    end;
    rewrite ?Ha, ?Hb; try change (1 <? infinity) with true; reflexivity.
Qed.

End MathMinFacts.

Section ImageTheorems.
Context `{PdfLib}.



End ImageTheorems.

Local Close Scope float_scope.

(** ** The ordered file list *)

Section ArrayFacts.
Context {T : Type}.
Implicit Types (array : list T) (p : T -> bool).




Lemma spliceInsert_Permutation array (start : Z) (item : T) :
  spliceInsert array start item ≡ₚ item :: array.
Proof.
  unfold spliceInsert.
  rewrite <- Permutation_middle. by rewrite take_drop.
Qed.

Lemma arrayMove_Permutation array (from to : Z) (moved : list T) :
  arrayMove array from to = Some moved -> moved ≡ₚ array.
Proof.
  unfold arrayMove, spliceRemoveOne.
  set (i := spliceStart (length array) from).
  rewrite head_lookup, lookup_take by lia. rewrite lookup_drop, Nat.add_0_r.
  destruct (array !! i) as [item|] eqn:Hitem; [|done].
  intros [= <-]. rewrite spliceInsert_Permutation, delete_take_drop.
  rewrite Permutation_middle. by rewrite take_drop_middle.
Qed.


End ArrayFacts.

Section FileListFacts.

Lemma removeFile_sublist (id0 : string) (l : list UploadedFile) :
  removeFile id0 l `sublist_of` l.
Proof.
  induction l as [|f l IH]; simpl; [done|].
  destruct (negb (id f =? id0)%string); by constructor.
Qed.

Lemma removeFile_Forall (id0 : string) (l : list UploadedFile) :
  Forall (fun f => id f <> id0) (removeFile id0 l).
Proof.
  induction l as [|f l IH]; simpl; [done|].
  destruct (String.eqb_spec (id f) id0); simpl; [done|by constructor].
Qed.

Lemma removeFile_greatest (id0 : string) (k l : list UploadedFile) :
  k `sublist_of` l -> Forall (fun f => id f <> id0) k ->
  k `sublist_of` removeFile id0 l.
Proof.
  induction 1 as [|f k l _ IH|f k l _ IH]; intros Hk; simpl; [done| |].
  - inversion Hk as [|? ? Hf Hk']; subst.
    apply String.eqb_neq in Hf. rewrite Hf; simpl. constructor. by apply IH.
  - destruct (negb (id f =? id0)%string); [constructor|]; by apply IH.
Qed.

Lemma removeFile_absent (id0 : string) (l : list UploadedFile) :
  id0 ∉ id <$> l -> removeFile id0 l = l.
Proof.
  induction l as [|f l IH]; csimpl; [done|].
  rewrite not_elem_of_cons. intros [Hf Hl].
  destruct (String.eqb_spec (id f) id0); simpl; [congruence|].
  by rewrite IH.
Qed.

Lemma newFiles_ids (randomUUID : nat -> string) (createObjectURL : File -> string)
    (fileList : list File) :
  id <$> newFiles randomUUID createObjectURL fileList
  = randomUUID <$> seq 0 (length fileList).
Proof.
  unfold newFiles. rewrite fmap_imap.
  by rewrite <- (imap_seq fileList randomUUID 0).
Qed.

(** C9.  [removeFile id0] keeps a record exactly when its id differs from
    [id0]: the result is a subsequence of the list (so the records kept are
    unchanged and in their former order), none of its records has id [id0],
    it is the greatest such subsequence (so nothing else was dropped), and
    when no record has id [id0] the list is returned as it was. *)
Theorem removeFile_removes_exactly (id0 : string) (l : list UploadedFile) :
  removeFile id0 l `sublist_of` l
  /\ Forall (fun f => id f <> id0) (removeFile id0 l)
  /\ (forall k, k `sublist_of` l -> Forall (fun f => id f <> id0) k ->
        k `sublist_of` removeFile id0 l)
  /\ (forall f, f ∈ removeFile id0 l <-> f ∈ l /\ id f <> id0)
  /\ (id0 ∉ id <$> l -> removeFile id0 l = l).
Proof.
  split; [apply removeFile_sublist|].
  split; [apply removeFile_Forall|].
  split; [intros k; apply removeFile_greatest|].
  split; [|apply removeFile_absent].
  intros f. unfold removeFile. rewrite list_elem_of_In, filter_In, <- list_elem_of_In.
  rewrite negb_true_iff, String.eqb_neq. tauto.
Qed.


End FileListFacts.

(** ** handleMerge *)

Section HandleMergeTheorems.
Context `{PdfLib}.

(** C10.  On an empty file list [handleMerge] returns at once: the state,
    and with it the processing status, is what it was, and nothing is
    called, neither [generateMergedPdf] nor [downloadPdf].  No state makes
    [handleMerge] call [generateMergedPdf] on an empty list. *)
Theorem handleMerge_empty_returns (now : Z) (st : AppState) :
  app_files st = [] ->
  handleMerge now st = (st, [])
  /\ forall now' st' files,
       CallGenerateMergedPdf files ∈ snd (handleMerge now' st') -> files <> [].
Proof.
  intros Hempty. split.
  - unfold handleMerge. by rewrite Hempty.
  - intros now' st' files. unfold handleMerge.
    destruct (app_files st') as [|f rest] eqn:Hfiles; simpl.
    + by intros ?%elem_of_nil.
    + destruct (fst (generateMergedPdf (f :: rest))); simpl;
        rewrite !elem_of_cons, elem_of_nil; intros Hin;
        repeat (destruct Hin as [Hin|Hin]; [by simplify_eq|]); done.
Qed.

End HandleMergeTheorems.

(** * The routines on concrete inputs *)

Section Examples.
#[local] Existing Instance Sample.lib.

Import Sample.

Ltac valid_pdf := split; [reflexivity|eexists; reflexivity].
Ltac gets_through :=
  eexists; split; [reflexivity|intros ?; vm_compute; discriminate].

(** The empty list: the merge settles to bytes, those of a document with
    one page, not to an error. *)
Lemma merge_empty_settles_to_bytes :
  fst (generateMergedPdf []) = inr [x25; x50].
Proof. reflexivity. Qed.

(** A list of one valid PDF that has no page: the sum of the page counts is
    0, the document built has one page. *)
Lemma merge_of_pageless_pdf_has_a_page :
  Forall validPdf [empty]
  /\ sum_list (length <$> (sourcePages <$> [empty])) = 0
  /\ length (doc_pages (st_mergedPdf (snd (generateMergedPdf [empty])))) = 1.
Proof.
  split; [|split; reflexivity].
  constructor; [|constructor]. split; [reflexivity|eexists; reflexivity].
Qed.



(** A text file between two PDFs: the merge settles to the bytes of the
    three pages of A.pdf and B.pdf. *)
Lemma merge_passes_over_text_file :
  fst (generateMergedPdf [A; notes; B]) = inr [x25; x50; x50; x50].
Proof. reflexivity. Qed.

(** Bytes that are not a PDF, after a good PDF: the value thrown is the
    library's message, letter for letter the same whether the file is
    called scan.pdf or invoice.pdf. *)
Lemma merge_error_carries_no_file_name :
  fst (generateMergedPdf [A; corrupt "scan.pdf"])
  = inl (PdfLibError "No PDF header found")
  /\ fst (generateMergedPdf [A; corrupt "invoice.pdf"])
     = inl (PdfLibError "No PDF header found").
Proof. split; reflexivity. Qed.

(** A.pdf (two pages) then a 1200 x 1600 photo: three pages, the third
    drawing the photo 515.28 x 687.04 at (40, 77.42500000000001). *)
Example merge_pdf_then_photo :
  doc_pages (st_mergedPdf (snd (generateMergedPdf [A; photo])))
  = [pageOf x01; pageOf x02;
     mkPage 595.28 841.89
       [DrawImage photoImage 40 77.42500000000001 515.28 687.04]].
Proof. vm_compute. reflexivity. Qed.

(** Dragging the first of four to the third place, the last to the front,
    and a drag on an empty array. *)
Example arrayMove_samples :
  arrayMove [1; 2; 3; 4] 0 2 = Some [2; 3; 1; 4]
  /\ arrayMove [1; 2; 3; 4] 3 0 = Some [4; 1; 2; 3]
  /\ arrayMove [1; 2; 3; 4] (-1) 1 = Some [1; 4; 2; 3]
  /\ arrayMove (@nil nat) (-1) (-1) = None.
Proof. repeat split. Qed.

Lemma merge_pdfs_concatenates_witness :
  [A; B] <> []
  /\ Forall validPdf [A; B]
  /\ (concat (sourcePages <$> [A; B]) <> [] ->
        doc_pages (st_mergedPdf (snd (generateMergedPdf [A; B])))
        = concat (sourcePages <$> [A; B])
        /\ length (doc_pages (st_mergedPdf (snd (generateMergedPdf [A; B]))))
           = sum_list (length <$> (sourcePages <$> [A; B])))
  /\ (concat (sourcePages <$> [A; B]) = [] ->
        doc_pages (st_mergedPdf (snd (generateMergedPdf [A; B]))) = [blankPage])
  /\ fst (generateMergedPdf [A; B])
     = saved (st_mergedPdf (snd (generateMergedPdf [A; B]))).
Proof.
  assert (Hne : [A; B] <> []) by discriminate.
  assert (Hall : Forall validPdf [A; B]) by (repeat (constructor; [valid_pdf|]); constructor).
  split; [exact Hne|]. split; [exact Hall|].
  exact (merge_pdfs_concatenates [A; B] Hne Hall).
Defined.


Lemma merge_skips_other_types_witness :
  file_data (file notes) = Some [x68; x69]
  /\ type notes <> FileType.PDF /\ type notes <> FileType.PNG
  /\ type notes <> FileType.JPEG
  /\ fst (generateMergedPdf ([A] ++ notes :: [B])) = fst (generateMergedPdf ([A] ++ [B]))
  /\ st_mergedPdf (snd (generateMergedPdf ([A] ++ notes :: [B])))
     = st_mergedPdf (snd (generateMergedPdf ([A] ++ [B]))).
Proof.
  split; [reflexivity|]. do 3 (split; [discriminate|]).
  apply (merge_skips_other_types [A] [B] notes [x68; x69]);
    [reflexivity|discriminate..].
Defined.

Lemma merge_aborts_with_library_error_witness :
  Forall processable [A]
  /\ file_data (file (corrupt "scan.pdf")) = Some [x00; x01]
  /\ decodeAs (type (corrupt "scan.pdf")) [x00; x01] = Some (inl "No PDF header found")
  /\ fst (generateMergedPdf ([A] ++ corrupt "scan.pdf" :: [B]))
     = inl (PdfLibError "No PDF header found")
  /\ forall g : string -> string,
       fst (generateMergedPdf (rename g <$> ([A] ++ corrupt "scan.pdf" :: [B])))
       = inl (PdfLibError "No PDF header found").
Proof.
  assert (HA : Forall processable [A]) by (constructor; [gets_through|constructor]).
  split; [exact HA|]. split; [reflexivity|]. split; [reflexivity|].
  exact (merge_aborts_with_library_error [A] [B] (corrupt "scan.pdf") [x00; x01]
           "No PDF header found" HA eq_refl eq_refl).
Defined.



Lemma handleMerge_empty_returns_witness :
  app_files (mkApp [] (mkStatus false "" None)) = []
  /\ handleMerge 0 (mkApp [] (mkStatus false "" None))
     = (mkApp [] (mkStatus false "" None), [])
  /\ forall now' st' files,
       CallGenerateMergedPdf files ∈ snd (handleMerge now' st') -> files <> [].
Proof.
  split; [reflexivity|].
  exact (handleMerge_empty_returns 0 (mkApp [] (mkStatus false "" None)) eq_refl).
Defined.

End Examples.

(** * Further properties of the merge engine *)

Section MergeComposition.
Context `{PdfLib}.

Lemma fileOutcome_contribution (f : UploadedFile) (d : PDFDocument) :
  processable f ->
  fileOutcome f d
  = inr (mkDoc (doc_pages d ++ pagesOf f) (doc_images d ++ imagesOf f)).
Proof.
  intros (buffer & Hdata & Hok). unfold fileOutcome, pagesOf, imagesOf.
  rewrite Hdata.
  destruct (decodeAs (type f) buffer) as [[m|[pdf|image]]|].
  - by destruct (Hok m).
  - by rewrite app_nil_r.
  - done.
  - by rewrite !app_nil_r, doc_eta.
Qed.

Lemma loopOutcome_contributions (files : list UploadedFile) (d : PDFDocument) :
  Forall processable files ->
  loopOutcome files d
  = (None, mkDoc (doc_pages d ++ concat (pagesOf <$> files))
                 (doc_images d ++ concat (imagesOf <$> files))).
Proof.
  intros Hall; revert d; induction Hall as [|f files Hf _ IH]; intros d; csimpl.
  - by rewrite !app_nil_r, doc_eta.
  - rewrite fileOutcome_contribution by done. rewrite IH; simpl.
    by rewrite <- !app_assoc.
Qed.

(** A record the loop does not get past makes [fileOutcome] throw, and
    leaves the document as it is. *)
Lemma fileOutcome_not_processable (f : UploadedFile) (d : PDFDocument) :
  ~ processable f -> exists e, fileOutcome f d = inl e.
Proof.
  intros Hbad. unfold fileOutcome.
  destruct (file_data (file f)) as [buffer|] eqn:Hdata; [|eauto].
  destruct (decodeAs (type f) buffer) as [[m|dec]|] eqn:Hdec; [eauto| |];
    destruct Hbad; exists buffer; (split; [done|]); intros m; by rewrite Hdec.
Qed.

Lemma loopOutcome_bad_file (files : list UploadedFile) (f : UploadedFile)
    (d : PDFDocument) :
  f ∈ files -> ~ processable f -> exists e, fst (loopOutcome files d) = Some e.
Proof.
  intros Hin Hbad; revert d.
  induction files as [|g files IH]; intros d; [by apply elem_of_nil in Hin|].
  simpl. destruct (fileOutcome g d) as [e|d'] eqn:Hg; [eauto|].
  apply elem_of_cons in Hin as [->|Hin]; [|by apply IH].
  destruct (fileOutcome_not_processable g d Hbad) as [e He]. congruence.
Qed.

Lemma fileOutcome_sameInput (f g : UploadedFile) (d : PDFDocument) :
  sameInput f g -> fileOutcome f d = fileOutcome g d.
Proof. intros [Hty Hdata]. unfold fileOutcome. by rewrite Hty, Hdata. Qed.

Lemma loopOutcome_sameInput (l l' : list UploadedFile) (d : PDFDocument) :
  Forall2 sameInput l l' -> loopOutcome l d = loopOutcome l' d.
Proof.
  intros Hall; revert d; induction Hall as [|f g l l' Hfg _ IH]; intros d; simpl;
    [done|].
  rewrite (fileOutcome_sameInput f g) by done.
  destruct (fileOutcome g d); [done|apply IH].
Qed.

(** Pages found in the document after the loop were there before or come
    from one of the records. *)
Lemma loopOutcome_pages_origin (files : list UploadedFile) (d : PDFDocument)
    (p : PDFPage) :
  p ∈ doc_pages (snd (loopOutcome files d)) ->
  p ∈ doc_pages d \/ exists f, f ∈ files /\ p ∈ pagesOf f.
Proof.
  revert d; induction files as [|f files IH]; intros d; simpl; [by left|].
  destruct (fileOutcome f d) as [e|d'] eqn:Hf; simpl; [by left|].
  intros [Hp|(g & Hg & Hp)]%IH.
  - assert (Hd' : p ∈ doc_pages d \/ p ∈ pagesOf f).
    { revert Hf Hp. unfold fileOutcome, pagesOf.
      destruct (file_data (file f)) as [buffer|]; [|done].
      destruct (decodeAs (type f) buffer) as [[m|[pdf|image]]|]; intros [= <-];
        simpl; rewrite ?elem_of_app; tauto. }
    destruct Hd' as [?|?]; [by left|right]. exists f. split; [left|done].
  - right. exists g. split; [by right|done].
Qed.

Lemma pagesOf_kinds (f : UploadedFile) (p : PDFPage) :
  p ∈ pagesOf f ->
  (type f = FileType.PDF /\ p ∈ sourcePages f)
  \/ ((type f = FileType.PNG \/ type f = FileType.JPEG)
      /\ exists image, image ∈ imagesOf f /\ p = imagePage image).
Proof.
  unfold pagesOf, imagesOf, sourcePages, sourcePdf, decodeAs.
  destruct (file_data (file f)) as [buffer|]; [|by intros ?%elem_of_nil].
  destruct (String.eqb_spec (type f) FileType.PDF) as [Hpdf|Hpdf].
  - destruct (parsePdf buffer) as [m|pdf]; [by intros ?%elem_of_nil|]. by left.
  - destruct (String.eqb_spec (type f) FileType.PNG) as [Hpng|Hpng]; simpl.
    + destruct (decodePng buffer) as [m|image]; [by intros ?%elem_of_nil|].
      intros ->%list_elem_of_singleton. right. split; [by left|].
      exists image. by rewrite list_elem_of_singleton.
    + destruct (String.eqb_spec (type f) FileType.JPG) as [Hjpg|Hjpg]; simpl.
      * destruct (decodeJpg buffer) as [m|image]; [by intros ?%elem_of_nil|].
        intros ->%list_elem_of_singleton. right. split; [by right|].
        exists image. by rewrite list_elem_of_singleton.
      * unfold FileType.JPEG, FileType.JPG in *.
        destruct (String.eqb_spec (type f) "image/jpeg"); [done|].
        by intros ?%elem_of_nil.
Qed.

Lemma processable_dec (f : UploadedFile) : processable f \/ ~ processable f.
Proof.
  unfold processable.
  destruct (file_data (file f)) as [buffer|] eqn:Hdata.
  - destruct (decodeAs (type f) buffer) as [[m|dec]|] eqn:Hdec.
    + right. intros (b & [= <-] & Hok). by destruct (Hok m).
    + left. exists buffer. split; [done|]. intros m. by rewrite Hdec.
    + left. exists buffer. split; [done|]. intros m. by rewrite Hdec.
  - right. by intros (b & ? & _).
Qed.

(** X1.  Lists of any mix of types: when the loop gets past every record,
    the document built holds, record after record in list order, the pages
    of each PDF, one page for each image and nothing for a record of another
    type, or, when that leaves it without a page, the one blank page that
    [save] adds; the images embedded are those of the image records, in
    order; and the value returned is the serialisation of that document. *)
Theorem merge_builds_contributions (files : list UploadedFile) :
  Forall processable files ->
  let merged := st_mergedPdf (snd (generateMergedPdf files)) in
  doc_pages merged
  = match concat (pagesOf <$> files) with
    | [] => [blankPage]
    | p :: pages => p :: pages
    end
  /\ doc_images merged = concat (imagesOf <$> files)
  /\ (concat (pagesOf <$> files) <> [] ->
        length (doc_pages merged) = sum_list (length <$> (pagesOf <$> files)))
  /\ fst (generateMergedPdf files) = saved merged.
Proof.
  intros Hall merged. subst merged.
  rewrite generateMergedPdf_spec, loopOutcome_contributions by done; simpl.
  rewrite withDefaultPage_pages, withDefaultPage_images; simpl.
  split; [by destruct (concat (pagesOf <$> files))|].
  split; [done|]. split; [|done].
  intros Hne. rewrite <- length_concat_fmap.
  by destruct (concat (pagesOf <$> files)).
Qed.

(** X2.  Merging a list made of two parts, each of which adds at least one
    page, builds the pages of merging the first part followed by the pages
    of merging the second, and likewise for the embedded images, when the
    loop gets past every record. *)
Theorem merge_of_append (l1 l2 : list UploadedFile) :
  Forall processable l1 -> Forall processable l2 ->
  concat (pagesOf <$> l1) <> [] -> concat (pagesOf <$> l2) <> [] ->
  doc_pages (st_mergedPdf (snd (generateMergedPdf (l1 ++ l2))))
  = doc_pages (st_mergedPdf (snd (generateMergedPdf l1)))
    ++ doc_pages (st_mergedPdf (snd (generateMergedPdf l2)))
  /\ doc_images (st_mergedPdf (snd (generateMergedPdf (l1 ++ l2))))
     = doc_images (st_mergedPdf (snd (generateMergedPdf l1)))
       ++ doc_images (st_mergedPdf (snd (generateMergedPdf l2))).
Proof.
  intros H1 H2 Hp1 Hp2.
  rewrite !generateMergedPdf_spec.
  rewrite !loopOutcome_contributions by (done || by apply Forall_app).
  simpl. rewrite !withDefaultPage_pages, !withDefaultPage_images. simpl.
  rewrite !fmap_app, !concat_app.
  destruct (concat (pagesOf <$> l1)) as [|p1 ps1]; [done|].
  destruct (concat (pagesOf <$> l2)) as [|p2 ps2]; [done|].
  done.
Qed.

(** X3.  The bytes of every record are read before its type is looked at:
    a record that cannot be read makes the merge throw the reader's error,
    whatever its declared type, even one the loop would pass over. *)
Theorem merge_unreadable_file (l1 l2 : list UploadedFile) (f : UploadedFile) :
  Forall processable l1 ->
  file_data (file f) = None ->
  fst (generateMergedPdf (l1 ++ f :: l2)) = inl ReaderError.
Proof.
  intros Hl1 Hdata. rewrite generateMergedPdf_spec, loopOutcome_app.
  destruct (loopOutcome_processable l1 (mkDoc [] []) Hl1) as [d ->]. simpl.
  unfold fileOutcome. by rewrite Hdata.
Qed.

(** X4.  The merge returns bytes only when the loop got past every record:
    one record anywhere in the list that cannot be read, or whose bytes the
    library rejects, and the call throws.  The bytes returned are the
    serialisation of the document built. *)
Theorem merge_returns_bytes_only_if_all_ok (files : list UploadedFile)
    (pdfBytes : bytes) :
  fst (generateMergedPdf files) = inr pdfBytes ->
  Forall processable files
  /\ serialize (st_mergedPdf (snd (generateMergedPdf files))) = inr pdfBytes.
Proof.
  rewrite generateMergedPdf_spec.
  destruct (loopOutcome files (mkDoc [] [])) as [[e|] d] eqn:Hloop; simpl;
    [done|].
  intros Hok. split.
  - apply Forall_forall. intros f Hin.
    destruct (processable_dec f) as [?|Hbad]; [done|].
    destruct (loopOutcome_bad_file files f (mkDoc [] []) Hin Hbad) as [e He].
    by rewrite Hloop in He.
  - unfold saved in Hok. destruct (serialize _); by simplify_eq.
Qed.

(** X5.  The merge looks at the declared type and the bytes of each record
    and at nothing else: two lists whose records agree on both, position by
    position, settle to the same value and build the same document, whatever
    their ids, names, sizes and preview URLs. *)
Theorem merge_depends_on_type_and_bytes (l l' : list UploadedFile) :
  Forall2 sameInput l l' ->
  fst (generateMergedPdf l) = fst (generateMergedPdf l')
  /\ st_mergedPdf (snd (generateMergedPdf l)) = st_mergedPdf (snd (generateMergedPdf l')).
Proof.
  intros Hsame. rewrite !generateMergedPdf_spec.
  rewrite (loopOutcome_sameInput l l') by done.
  by destruct (loopOutcome l' (mkDoc [] [])) as [[e|] d].
Qed.

(** X6.  Every page of the document the merge leaves behind, whether it
    returned or threw, comes from a record of the list: it is a page of that
    record's PDF, as parsed, or it is the A4 page on which that record's
    image, and nothing else, is drawn.  The one exception is the blank page
    that [save] adds, and then that page is the whole document. *)
Theorem merged_pages_origin (files : list UploadedFile) (p : PDFPage) :
  p ∈ doc_pages (st_mergedPdf (snd (generateMergedPdf files))) ->
  (exists f, f ∈ files
     /\ ((type f = FileType.PDF /\ p ∈ sourcePages f)
         \/ ((type f = FileType.PNG \/ type f = FileType.JPEG)
             /\ exists image x y w h,
                  image ∈ imagesOf f
                  /\ p = mkPage (fst PageSizes.A4) (snd PageSizes.A4)
                           [DrawImage image x y w h])))
  \/ (p = blankPage
      /\ doc_pages (st_mergedPdf (snd (generateMergedPdf files))) = [blankPage]).
Proof.
  rewrite generateMergedPdf_spec.
  assert (Horigin : forall q,
    q ∈ doc_pages (snd (loopOutcome files (mkDoc [] []))) ->
    exists f, f ∈ files
      /\ ((type f = FileType.PDF /\ q ∈ sourcePages f)
          \/ ((type f = FileType.PNG \/ type f = FileType.JPEG)
              /\ exists image x y w h,
                   image ∈ imagesOf f
                   /\ q = mkPage (fst PageSizes.A4) (snd PageSizes.A4)
                            [DrawImage image x y w h]))).
  { intros q [Hq|(f & Hf & Hq)]%loopOutcome_pages_origin;
      [by apply elem_of_nil in Hq|].
    exists f. split; [done|].
    destruct (pagesOf_kinds f q Hq) as [?|[Hty (image & Himage & ->)]]; [by left|].
    right. split; [done|]. by exists image; eexists _, _, _, _. }
  destruct (loopOutcome files (mkDoc [] [])) as [[e|] d]; simpl in *.
  - intros Hp. left. by apply Horigin.
  - rewrite withDefaultPage_pages.
    destruct (doc_pages d) as [|p0 pages] eqn:Hpages.
    + intros ->%list_elem_of_singleton. by right.
    + intros Hp. left. by apply Horigin.
Qed.

End MergeComposition.

(** * Further properties of the image placement *)

Local Open Scope float_scope.

Section SmallImages.
Context `{PdfLib}.

Lemma widths_fit_unscaled :
  Forall (fitsUnscaled (595.28 - 40 * 2)) (seqZ 1 515).
Proof.
  unfold fitsUnscaled. vm_compute.
  repeat (constructor; [repeat split|]). constructor.
Qed.

Lemma heights_fit_unscaled :
  Forall (fitsUnscaled (841.89 - 40 * 2)) (seqZ 1 761).
Proof.
  unfold fitsUnscaled. vm_compute.
  repeat (constructor; [repeat split|]). constructor.
Qed.

(** X8.  An image that fits inside the margins, of a whole number of
    pixels each way (from 1 to 515 wide, from 1 to 761 high), is drawn at
    its own size, in the middle of the page: the factor is exactly 1. *)
Theorem placeImage_small_image (image : PDFImage) (s : Store)
    (imageWidth imageHeight : Z) :
  (1 <= imageWidth <= 515)%Z -> (1 <= imageHeight <= 761)%Z ->
  img_width image = pixels imageWidth ->
  img_height image = pixels imageHeight ->
  placeImage image s
  = (inr tt,
     mkStore (st_files s)
       (mkDoc (doc_pages (st_mergedPdf s)
               ++ [mkPage 595.28 841.89
                     [DrawImage image
                        ((595.28 - pixels imageWidth) / 2)
                        ((841.89 - pixels imageHeight) / 2)
                        (pixels imageWidth) (pixels imageHeight)]])
              (doc_images (st_mergedPdf s)))).
Proof.
  intros Hw Hh Ew Eh.
  assert (Hfw : fitsUnscaled (595.28 - 40 * 2) imageWidth).
  { eapply Forall_forall; [apply widths_fit_unscaled|]. apply elem_of_seqZ. lia. }
  assert (Hfh : fitsUnscaled (841.89 - 40 * 2) imageHeight).
  { eapply Forall_forall; [apply heights_fit_unscaled|]. apply elem_of_seqZ. lia. }
  destruct Hfw as (Hnw & H1w & Ew1), Hfh as (Hnh & H1h & Eh1).
  rewrite placeImage_spec. unfold imagePage.
  cbn [fst snd PageSizes.A4 scale]. rewrite Ew, Eh.
  rewrite (Math_min_one _ _ Hnw H1w Hnh H1h).
  by rewrite Ew1, Eh1.
Qed.

End SmallImages.

Local Close Scope float_scope.

(** * Further properties of the ordered file list *)

Section MoveFacts.
Context {T : Type}.
Implicit Types (array : list T) (p : T -> bool).

Lemma findIndexFrom_first p (k : Z) array (i : nat) (x : T) :
  array !! i = Some x -> p x = true ->
  (forall j y, j < i -> array !! j = Some y -> p y = false) ->
  findIndexFrom p k array = (k + Z.of_nat i)%Z.
Proof.
  revert k i; induction array as [|a array IH]; intros k i Hi Hx Hbefore; [done|].
  simpl. destruct i as [|i]; simpl in Hi.
  - simplify_eq. rewrite Hx. lia.
  - rewrite (Hbefore 0 a) by (done || lia).
    rewrite (IH (k + 1)%Z i) by (try done; intros j y ?; apply (Hbefore (S j)); lia).
    lia.
Qed.

Lemma spliceStart_nat (len i : nat) : i <= len -> spliceStart len (Z.of_nat i) = i.
Proof.
  intros Hi. unfold spliceStart. destruct (Z.ltb_spec (Z.of_nat i) 0); lia.
Qed.

(** Moving between two positions of the array: the element leaves its
    place and is put back at the target position of what remains. *)
Lemma arrayMove_valid array (i j : nat) (x : T) :
  array !! i = Some x -> j < length array ->
  arrayMove array (Z.of_nat i) (Z.of_nat j)
  = Some (take j (delete i array) ++ x :: drop j (delete i array)).
Proof.
  intros Hi Hj. pose proof (lookup_lt_Some _ _ _ Hi) as Hlt.
  unfold arrayMove, spliceRemoveOne, spliceInsert.
  rewrite spliceStart_nat by lia.
  rewrite head_lookup, lookup_take by lia. rewrite lookup_drop, Nat.add_0_r, Hi.
  destruct (Z.ltb_spec (Z.of_nat j) 0); [lia|].
  rewrite spliceStart_nat; [done|].
  rewrite length_delete by eauto. lia.
Qed.

End MoveFacts.

Section FileListComposition.

Lemma findIndex_id (items : list UploadedFile) (i : nat) (f : UploadedFile) :
  NoDup (id <$> items) -> items !! i = Some f ->
  findIndex (fun item => (id item =? id f)%string) items = Z.of_nat i.
Proof.
  intros Hnodup Hi. unfold findIndex.
  rewrite (findIndexFrom_first _ 0 items i f); [lia|done|apply String.eqb_refl|].
  intros j y Hj Hy. apply String.eqb_neq. intros Heq.
  assert (j = i); [|lia].
  apply (NoDup_lookup (id <$> items) j i (id f)); [done| |];
    rewrite list_lookup_fmap; [rewrite Hy|rewrite Hi]; simpl; congruence.
Qed.

Lemma removeFile_app (id0 : string) (l1 l2 : list UploadedFile) :
  removeFile id0 (l1 ++ l2) = removeFile id0 l1 ++ removeFile id0 l2.
Proof. apply List.filter_app. Qed.

Lemma removeFile_elem_of (id0 : string) (l : list UploadedFile) (f : UploadedFile) :
  f ∈ removeFile id0 l <-> f ∈ l /\ id f <> id0.
Proof.
  unfold removeFile. rewrite list_elem_of_In, filter_In, <- list_elem_of_In.
  rewrite negb_true_iff, String.eqb_neq. tauto.
Qed.

Lemma removeFile_middle (l1 l2 : list UploadedFile) (f : UploadedFile) :
  NoDup (id <$> (l1 ++ f :: l2)) ->
  removeFile (id f) (l1 ++ f :: l2) = l1 ++ l2.
Proof.
  rewrite fmap_app, fmap_cons. intros Hnodup.
  apply NoDup_app in Hnodup as (_ & Hl1 & Hl2).
  apply NoDup_cons in Hl2 as [Hl2 _].
  rewrite removeFile_app. simpl. rewrite String.eqb_refl. simpl.
  rewrite !removeFile_absent; [done|done|].
  intros Hin. apply (Hl1 _ Hin). by left.
Qed.

Lemma foldr_removeFile_elem_of (ids : list string) (l : list UploadedFile)
    (f : UploadedFile) :
  f ∈ foldr removeFile l ids <-> f ∈ l /\ id f ∉ ids.
Proof.
  induction ids as [|a ids IH]; simpl.
  - rewrite elem_of_nil. tauto.
  - rewrite removeFile_elem_of, IH, not_elem_of_cons. tauto.
Qed.

Lemma foldr_removeFile_app (ids : list string) (l1 l2 : list UploadedFile) :
  foldr removeFile (l1 ++ l2) ids
  = foldr removeFile l1 ids ++ foldr removeFile l2 ids.
Proof.
  induction ids as [|a ids IH]; simpl; [done|].
  by rewrite IH, removeFile_app.
Qed.

Lemma foldr_removeFile_absent (ids : list string) (l : list UploadedFile) :
  (forall a, a ∈ ids -> a ∉ id <$> l) -> foldr removeFile l ids = l.
Proof.
  induction ids as [|a ids IH]; intros Habsent; simpl; [done|].
  rewrite IH by (intros b Hb; apply Habsent; by right).
  apply removeFile_absent, Habsent. by left.
Qed.

Lemma concat_Permutation {A} (ls ks : list (list A)) :
  ls ≡ₚ ks -> concat ls ≡ₚ concat ks.
Proof.
  induction 1 as [|x ls ks _ IH|x y ls|ls ks ms _ IH1 _ IH2]; simpl.
  - done.
  - by rewrite IH.
  - rewrite !app_assoc. by rewrite (Permutation_app_comm y x).
  - by rewrite IH1.
Qed.

(** X10.  An upload leaves the records already listed where they are and
    adds, after them, one record for each picked file, in the order of the
    picker; each new record carries its file, the file's name, type and
    size, and the id drawn for it.  An event without a file list changes
    nothing. *)
Theorem handleFileUpload_appends (randomUUID : nat -> string)
    (createObjectURL : File -> string) (fileList : list File)
    (prev : list UploadedFile) :
  let next := handleFileUpload randomUUID createObjectURL (Some fileList) prev in
  handleFileUpload randomUUID createObjectURL None prev = prev
  /\ take (length prev) next = prev
  /\ length next = length prev + length fileList
  /\ file <$> drop (length prev) next = fileList
  /\ forall i r, next !! (length prev + i) = Some r ->
       id r = randomUUID i /\ name r = file_name (file r)
       /\ type r = file_type (file r) /\ size r = file_size (file r).
Proof.
  intros next. subst next. unfold handleFileUpload.
  split; [done|]. split; [apply take_app_length|].
  split; [unfold newFiles; by rewrite length_app, length_imap|].
  split.
  - rewrite drop_app_length. unfold newFiles.
    assert (Hfiles : forall (g : nat -> File -> UploadedFile) l,
               (forall n f, file (g n f) = f) -> file <$> imap g l = l).
    { intros g l; revert g; induction l as [|f l IH]; intros g Hg; csimpl; [done|].
      rewrite Hg. f_equal. apply IH. intros n f'. apply Hg. }
    by apply Hfiles.
  - intros i r. rewrite lookup_app_r by lia.
    replace (length prev + i - length prev) with i by lia.
    unfold newFiles. rewrite list_lookup_imap.
    destruct (fileList !! i) as [f|]; by intros [= <-].
Qed.

(** X11.  Removing the records an upload has added, by their ids, gives
    back the list as it was before the upload, provided none of the new ids
    was already in use. *)
Theorem upload_then_remove_round_trip (randomUUID : nat -> string)
    (createObjectURL : File -> string) (fileList : list File)
    (prev : list UploadedFile) :
  (forall i, i < length fileList -> randomUUID i ∉ id <$> prev) ->
  foldr removeFile
        (handleFileUpload randomUUID createObjectURL (Some fileList) prev)
        (randomUUID <$> seq 0 (length fileList))
  = prev.
Proof.
  intros Hfresh. unfold handleFileUpload.
  rewrite foldr_removeFile_app.
  rewrite foldr_removeFile_absent.
  - rewrite <- (app_nil_r prev) at 2. f_equal.
    apply elem_of_nil_inv. intros r [Hin Hid]%foldr_removeFile_elem_of.
    apply Hid. rewrite <- newFiles_ids with (createObjectURL := createObjectURL).
    apply list_elem_of_fmap. by exists r.
  - intros a (i & -> & Hi)%list_elem_of_fmap.
    apply elem_of_seq in Hi. apply Hfresh. lia.
Qed.

(** X12.  In a list without two records of the same id, removing by the id
    of the record at position [i] takes out that record and no other. *)
Theorem removeFile_removes_that_record (l : list UploadedFile) (i : nat)
    (f : UploadedFile) :
  NoDup (id <$> l) -> l !! i = Some f ->
  removeFile (id f) l = delete i l
  /\ length (removeFile (id f) l) + 1 = length l.
Proof.
  intros Hnodup Hi.
  assert (E : removeFile (id f) l = delete i l).
  { rewrite <- (take_drop_middle l i f Hi) in Hnodup |- * at 1.
    rewrite removeFile_middle by done. by rewrite delete_take_drop. }
  split; [done|]. rewrite E, length_delete by eauto.
  apply lookup_lt_Some in Hi. lia.
Qed.

(** X13.  Removals do not depend on their order, and removing the same id
    twice is the same as removing it once. *)
Theorem removeFile_commutes (a b : string) (l : list UploadedFile) :
  removeFile a (removeFile b l) = removeFile b (removeFile a l)
  /\ removeFile a (removeFile a l) = removeFile a l.
Proof.
  split.
  - induction l as [|f l IH]; simpl; [done|].
    destruct (negb (id f =? b)%string) eqn:Hb, (negb (id f =? a)%string) eqn:Ha;
      simpl; rewrite ?Ha, ?Hb; by rewrite ?IH.
  - apply removeFile_absent.
    intros (f & -> & [_ Hne]%removeFile_elem_of)%list_elem_of_fmap. done.
Qed.

(** X14.  A drag of the record at position [i] onto another record, at
    position [j], puts the dragged record at position [j]; the other records
    keep their order (taking the dragged record out of the new list and out
    of the old one leaves the same list).  A drop outside any record, or on
    the dragged record itself, changes nothing. *)
Theorem handleDragEnd_moves (items : list UploadedFile) (i j : nat)
    (a b : UploadedFile) :
  NoDup (id <$> items) ->
  items !! i = Some a -> items !! j = Some b -> i <> j ->
  (exists items',
      handleDragEnd (mkDragEnd (id a) (Some (id b))) items = Some items'
      /\ items' !! j = Some a
      /\ delete j items' = delete i items
      /\ length items' = length items)
  /\ handleDragEnd (mkDragEnd (id a) None) items = Some items
  /\ handleDragEnd (mkDragEnd (id a) (Some (id a))) items = Some items.
Proof.
  intros Hnodup Hi Hj Hij.
  pose proof (lookup_lt_Some _ _ _ Hi) as Hilt.
  pose proof (lookup_lt_Some _ _ _ Hj) as Hjlt.
  split; [|split; [done|]].
  - assert (Hab : id a <> id b).
    { intros Heq. apply Hij.
      apply (NoDup_lookup (id <$> items) i j (id a)); [done| |];
        rewrite list_lookup_fmap; [rewrite Hi|rewrite Hj]; simpl; congruence. }
    unfold handleDragEnd; simpl.
    apply String.eqb_neq in Hab. rewrite Hab; simpl.
    rewrite (findIndex_id items i a), (findIndex_id items j b) by done.
    rewrite (arrayMove_valid items i j a) by done.
    assert (Hlen : length (take j (delete i items)) = j).
    { apply length_take_le. rewrite length_delete by eauto. lia. }
    eexists. split; [done|]. split; [|split].
    + rewrite <- Hlen at 1. apply list_lookup_middle. done.
    + rewrite <- Hlen at 1. rewrite delete_middle. apply take_drop.
    + rewrite length_app, Hlen. simpl.
      rewrite length_drop, length_delete by eauto. lia.
  - unfold handleDragEnd; simpl. by rewrite String.eqb_refl.
Qed.

End FileListComposition.

Section ListThenMerge.
Context `{PdfLib}.

(** X15.  Dragging changes the order of the pages of the merged document
    and nothing else: when the loop gets past every record, the pages built
    from the list after a drag are the pages built from the list before it,
    rearranged, and there are as many. *)
Theorem drag_then_merge_rearranges_pages (event : DragEndEvent)
    (items items' : list UploadedFile) :
  Forall processable items ->
  handleDragEnd event items = Some items' ->
  doc_pages (st_mergedPdf (snd (generateMergedPdf items')))
  ≡ₚ doc_pages (st_mergedPdf (snd (generateMergedPdf items)))
  /\ fst (generateMergedPdf items')
     = saved (st_mergedPdf (snd (generateMergedPdf items'))).
Proof.
  intros Hall Hdrag.
  assert (Hperm : items' ≡ₚ items).
  { revert Hdrag. unfold handleDragEnd.
    destruct (over_id event) as [over|]; [|by intros [= <-]].
    destruct (negb (active_id event =? over)%string); [|by intros [= <-]].
    apply arrayMove_Permutation. }
  assert (Hall' : Forall processable items').
  { apply Forall_forall. intros f Hf. rewrite Forall_forall in Hall.
    apply Hall. by rewrite <- Hperm. }
  assert (Hpages : concat (pagesOf <$> items') ≡ₚ concat (pagesOf <$> items))
    by (apply concat_Permutation; by rewrite Hperm).
  rewrite !generateMergedPdf_spec, !loopOutcome_contributions by done. simpl.
  split; [|done]. rewrite !withDefaultPage_pages. simpl.
  pose proof (Permutation_length Hpages) as Hlen.
  by destruct (concat (pagesOf <$> items')), (concat (pagesOf <$> items)).
Qed.

(** X16.  Taking the one bad record out of the list lets the merge go
    through: when the loop gets past every other record and no two records
    share an id, the merge of the list without that record does not throw in
    the loop and builds the pages of the remaining records in order (or,
    when they add no page, the one blank page of [save]). *)
Theorem merge_after_removing_record (l1 l2 : list UploadedFile) (f : UploadedFile) :
  NoDup (id <$> (l1 ++ f :: l2)) ->
  Forall processable l1 -> Forall processable l2 ->
  let rest := removeFile (id f) (l1 ++ f :: l2) in
  rest = l1 ++ l2
  /\ fst (generateMergedPdf rest) = saved (st_mergedPdf (snd (generateMergedPdf rest)))
  /\ doc_pages (st_mergedPdf (snd (generateMergedPdf rest)))
     = match concat (pagesOf <$> l1) ++ concat (pagesOf <$> l2) with
       | [] => [blankPage]
       | p :: pages => p :: pages
       end.
Proof.
  intros Hnodup H1 H2 rest. subst rest. rewrite removeFile_middle by done.
  split; [done|].
  rewrite generateMergedPdf_spec, loopOutcome_contributions by (by apply Forall_app).
  simpl. split; [done|].
  rewrite withDefaultPage_pages. simpl. rewrite fmap_app, concat_app.
  by destruct (concat (pagesOf <$> l1) ++ concat (pagesOf <$> l2)).
Qed.

End ListThenMerge.

(** * Further properties of handleMerge *)

Section StringFacts.

Lemma string_length_append (s t : string) :
  String.length (s ++ t)%string = String.length s + String.length t.
Proof. induction s as [|c s IH]; simpl; [done|by rewrite IH]. Qed.

Lemma string_append_cancel_r (s1 s2 t : string) :
  (s1 ++ t)%string = (s2 ++ t)%string -> s1 = s2.
Proof.
  revert s2; induction s1 as [|c s1 IH]; intros [|c' s2] Heq; simpl in Heq.
  - done.
  - apply (f_equal String.length) in Heq. simpl in Heq.
    rewrite string_length_append in Heq. lia.
  - apply (f_equal String.length) in Heq. simpl in Heq.
    rewrite string_length_append in Heq. lia.
  - injection Heq as -> Heq. f_equal. by apply IH.
Qed.

Lemma string_of_to_int_inj (a b : Z) :
  NilZero.string_of_int (Z.to_int a) = NilZero.string_of_int (Z.to_int b) -> a = b.
Proof.
  intros Heq. apply DecimalZ.to_int_inj.
  assert (Hnonnil : forall z, Z.to_int z <> Decimal.Pos Decimal.Nil
                              /\ Z.to_int z <> Decimal.Neg Decimal.Nil).
  { intros [|p|p]; simpl; split; try discriminate; intros [= Hp];
      by apply DecimalPos.Unsigned.to_uint_nonnil in Hp. }
  assert (Hsome : Some (Z.to_int a) = Some (Z.to_int b)); [|congruence].
  rewrite <- (NilZero.isi (Z.to_int a)), <- (NilZero.isi (Z.to_int b));
    try apply Hnonnil.
  by rewrite Heq.
Qed.

End StringFacts.

Section HandleMergeOutcomes.
Context `{PdfLib}.

Ltac trace_membership :=
  rewrite ?elem_of_cons, ?elem_of_nil; intuition (try discriminate; simplify_eq).

(** X17.  On a non-empty list [handleMerge] first switches the status to
    processing, then calls [generateMergedPdf] once, on the list as it is;
    when it is done the list is unchanged and the status is no longer
    processing, whether the merge returned or threw; and the status it ends
    in is the last one it set. *)
Theorem handleMerge_runs_once (now : Z) (st : AppState) :
  app_files st <> [] ->
  let after := fst (handleMerge now st) in
  let trace := snd (handleMerge now st) in
  app_files after = app_files st
  /\ isProcessing (app_status after) = false
  /\ (exists s0 rest,
        trace = SetStatus s0 :: Delay 100 :: CallGenerateMergedPdf (app_files st) :: rest
        /\ isProcessing s0 = true /\ error s0 = None
        /\ forall files, CallGenerateMergedPdf files ∉ rest)
  /\ (exists before later,
        trace = before ++ SetStatus (app_status after) :: later
        /\ forall s, SetStatus s ∉ later).
Proof.
  intros Hne after trace. subst after trace. unfold handleMerge.
  destruct (app_files st) as [|f files] eqn:Hfiles; [done|]. simpl.
  destruct (fst (generateMergedPdf (f :: files))) as [e|pdfBytes]; simpl.
  - split; [done|]. split; [done|]. split.
    + eexists _, _. split; [done|]. split; [done|]. split; [done|].
      intros fs. trace_membership.
    + eexists [_; _; _; _], []. split; [done|]. intros s. trace_membership.
  - split; [done|]. split; [done|]. split.
    + eexists _, _. split; [done|]. split; [done|]. split; [done|].
      intros fs. trace_membership.
    + eexists [_; _; _; _; _], [_]. split; [done|]. intros s. trace_membership.
Qed.

(** X18.  [handleMerge] downloads exactly when the merge returned bytes:
    then [downloadPdf] is called once, with those bytes and the name made
    from the time, nothing is logged and the status carries no error.  When
    the merge threw, nothing is downloaded, the thrown value is logged, and
    the status carries an error text and an empty message. *)
Theorem handleMerge_downloads_iff_merged (now : Z) (st : AppState) :
  app_files st <> [] ->
  let after := fst (handleMerge now st) in
  let trace := snd (handleMerge now st) in
  (forall pdfBytes, fst (generateMergedPdf (app_files st)) = inr pdfBytes ->
     (exists before later,
         trace = before ++ CallDownloadPdf pdfBytes (downloadName now) :: later
         /\ (forall data filename, CallDownloadPdf data filename ∉ before)
         /\ (forall data filename, CallDownloadPdf data filename ∉ later))
     /\ (forall e, ConsoleError e ∉ trace)
     /\ error (app_status after) = None)
  /\ (forall e, fst (generateMergedPdf (app_files st)) = inl e ->
        (forall data filename, CallDownloadPdf data filename ∉ trace)
        /\ ConsoleError e ∈ trace
        /\ is_Some (error (app_status after))
        /\ message (app_status after) = "").
Proof.
  intros Hne after trace. subst after trace. unfold handleMerge.
  destruct (app_files st) as [|f files] eqn:Hfiles; [done|]. simpl.
  split.
  - intros pdfBytes ->. simpl. split; [|split; [|done]].
    + eexists [_; _; _; _], [_; _]. split; [done|].
      split; intros data filename; trace_membership.
    + intros e. trace_membership.
  - intros e ->. simpl. split; [|split; [|split; [eauto|done]]].
    + intros data filename. trace_membership.
    + trace_membership.
Qed.

(** X19.  The name of the downloaded file starts with fusion_documento_,
    ends with .pdf, and tells the time of the merge: merges at different
    times get different names. *)
Theorem downloadName_injective (a b : Z) :
  (String.prefix "fusion_documento_" (downloadName a) = true
   /\ exists stem, downloadName a = (stem ++ ".pdf")%string)
  /\ (downloadName a = downloadName b -> a = b).
Proof.
  split; [split|].
  - unfold downloadName. simpl.
    repeat (destruct (Ascii.ascii_dec _ _) as [_|Hne]; [|by destruct Hne]).
    by destruct (_ ++ _)%string.
  - exists ("fusion_documento_" ++ NilZero.string_of_int (Z.to_int a))%string.
    unfold downloadName.
    induction "fusion_documento_" as [|c s IH]; simpl; [done|by rewrite IH].
  - unfold downloadName. intros Heq. simpl in Heq. injection Heq as Heq.
    by apply string_append_cancel_r, string_of_to_int_inj in Heq.
Qed.

End HandleMergeOutcomes.

(** * The further properties on concrete inputs *)

Section MoreExamples.
#[local] Existing Instance Sample.lib.

Import Sample.

Ltac gets_past :=
  eexists; split; [reflexivity|intros ?; vm_compute; discriminate].
Ltac all_get_past := repeat (constructor; [gets_past|]); constructor.

Lemma merge_builds_contributions_witness :
  Forall processable [A; photo; notes]
  /\ doc_pages (st_mergedPdf (snd (generateMergedPdf [A; photo; notes])))
     = match concat (pagesOf <$> [A; photo; notes]) with
       | [] => [blankPage]
       | p :: pages => p :: pages
       end
  /\ doc_images (st_mergedPdf (snd (generateMergedPdf [A; photo; notes])))
     = concat (imagesOf <$> [A; photo; notes])
  /\ (concat (pagesOf <$> [A; photo; notes]) <> [] ->
        length (doc_pages (st_mergedPdf (snd (generateMergedPdf [A; photo; notes]))))
        = sum_list (length <$> (pagesOf <$> [A; photo; notes])))
  /\ fst (generateMergedPdf [A; photo; notes])
     = saved (st_mergedPdf (snd (generateMergedPdf [A; photo; notes]))).
Proof.
  assert (Hall : Forall processable [A; photo; notes]) by all_get_past.
  split; [exact Hall|]. exact (merge_builds_contributions [A; photo; notes] Hall).
Defined.

Lemma merge_of_append_witness :
  Forall processable [A; photo] /\ Forall processable [B]
  /\ concat (pagesOf <$> [A; photo]) <> [] /\ concat (pagesOf <$> [B]) <> []
  /\ doc_pages (st_mergedPdf (snd (generateMergedPdf ([A; photo] ++ [B]))))
     = doc_pages (st_mergedPdf (snd (generateMergedPdf [A; photo])))
       ++ doc_pages (st_mergedPdf (snd (generateMergedPdf [B])))
  /\ doc_images (st_mergedPdf (snd (generateMergedPdf ([A; photo] ++ [B]))))
     = doc_images (st_mergedPdf (snd (generateMergedPdf [A; photo])))
       ++ doc_images (st_mergedPdf (snd (generateMergedPdf [B]))).
Proof.
  assert (H1 : Forall processable [A; photo]) by all_get_past.
  assert (H2 : Forall processable [B]) by all_get_past.
  assert (Hp1 : concat (pagesOf <$> [A; photo]) <> []) by discriminate.
  assert (Hp2 : concat (pagesOf <$> [B]) <> []) by discriminate.
  split; [exact H1|]. split; [exact H2|]. split; [exact Hp1|]. split; [exact Hp2|].
  exact (merge_of_append [A; photo] [B] H1 H2 Hp1 Hp2).
Defined.

Lemma merge_unreadable_file_witness :
  Forall processable [A]
  /\ file_data (file unreadable) = None
  /\ fst (generateMergedPdf ([A] ++ unreadable :: [B])) = inl ReaderError.
Proof.
  assert (H1 : Forall processable [A]) by all_get_past.
  split; [exact H1|]. split; [reflexivity|].
  exact (merge_unreadable_file [A] [B] unreadable H1 eq_refl).
Defined.

Lemma merge_returns_bytes_only_if_all_ok_witness :
  fst (generateMergedPdf [A; photo]) = inr [x25; x50; x50; x50]
  /\ Forall processable [A; photo]
  /\ serialize (st_mergedPdf (snd (generateMergedPdf [A; photo])))
     = inr [x25; x50; x50; x50].
Proof.
  split; [reflexivity|].
  exact (merge_returns_bytes_only_if_all_ok [A; photo] [x25; x50; x50; x50] eq_refl).
Defined.

Lemma merge_depends_on_type_and_bytes_witness :
  Forall2 sameInput [A; photo] [rename (fun _ => "x") A; rename (fun _ => "y") photo]
  /\ fst (generateMergedPdf [A; photo])
     = fst (generateMergedPdf [rename (fun _ => "x") A; rename (fun _ => "y") photo])
  /\ st_mergedPdf (snd (generateMergedPdf [A; photo]))
     = st_mergedPdf (snd (generateMergedPdf
                            [rename (fun _ => "x") A; rename (fun _ => "y") photo])).
Proof.
  assert (Hsame : Forall2 sameInput [A; photo]
                    [rename (fun _ => "x") A; rename (fun _ => "y") photo])
    by (repeat (constructor; [by split|]); constructor).
  split; [exact Hsame|].
  exact (merge_depends_on_type_and_bytes _ _ Hsame).
Defined.

Lemma merged_pages_origin_witness :
  pageOf x02 ∈ doc_pages (st_mergedPdf (snd (generateMergedPdf [A; photo])))
  /\ ((exists f, f ∈ [A; photo]
       /\ ((type f = FileType.PDF /\ pageOf x02 ∈ sourcePages f)
           \/ ((type f = FileType.PNG \/ type f = FileType.JPEG)
               /\ exists image x y w h,
                    image ∈ imagesOf f
                    /\ pageOf x02 = mkPage (fst PageSizes.A4) (snd PageSizes.A4)
                                      [DrawImage image x y w h])))
      \/ (pageOf x02 = blankPage
          /\ doc_pages (st_mergedPdf (snd (generateMergedPdf [A; photo])))
             = [blankPage])).
Proof.
  assert (Hin : pageOf x02 ∈ doc_pages (st_mergedPdf (snd (generateMergedPdf [A; photo]))))
    by (vm_compute; apply list_elem_of_further, list_elem_of_here).
  split; [exact Hin|].
  exact (merged_pages_origin [A; photo] (pageOf x02) Hin).
Defined.

Lemma placeImage_small_image_witness :
  (1 <= 100 <= 515)%Z /\ (1 <= 200 <= 761)%Z
  /\ img_width icon = pixels 100 /\ img_height icon = pixels 200
  /\ placeImage icon blank
     = (inr tt,
        mkStore (st_files blank)
          (mkDoc (doc_pages (st_mergedPdf blank)
                  ++ [mkPage 595.28 841.89
                        [DrawImage icon
                           ((595.28 - pixels 100) / 2)
                           ((841.89 - pixels 200) / 2)
                           (pixels 100) (pixels 200)]]%float)
                 (doc_images (st_mergedPdf blank)))).
Proof.
  assert (Hw : (1 <= 100 <= 515)%Z) by lia.
  assert (Hh : (1 <= 200 <= 761)%Z) by lia.
  split; [exact Hw|]. split; [exact Hh|].
  split; [reflexivity|]. split; [reflexivity|].
  exact (placeImage_small_image icon blank 100 200 Hw Hh eq_refl eq_refl).
Defined.

Ltac distinct_ids :=
  repeat (constructor; [rewrite list_elem_of_In; simpl; intuition discriminate|]);
  constructor.

Lemma upload_then_remove_round_trip_witness :
  (forall i, i < length [file C] -> (fun _ : nat => "id-C") i ∉ id <$> [A; B])
  /\ foldr removeFile
        (handleFileUpload (fun _ => "id-C") file_name (Some [file C]) [A; B])
        ((fun _ : nat => "id-C") <$> seq 0 (length [file C]))
     = [A; B].
Proof.
  assert (Hfresh : forall i, i < length [file C] ->
                     (fun _ : nat => "id-C") i ∉ id <$> [A; B]).
  { intros i _. rewrite list_elem_of_In. simpl. intuition discriminate. }
  split; [exact Hfresh|].
  exact (upload_then_remove_round_trip (fun _ => "id-C") file_name [file C] [A; B] Hfresh).
Defined.

Lemma removeFile_removes_that_record_witness :
  NoDup (id <$> [A; B; photo]) /\ [A; B; photo] !! 1 = Some B
  /\ removeFile (id B) [A; B; photo] = delete 1 [A; B; photo]
  /\ length (removeFile (id B) [A; B; photo]) + 1 = length [A; B; photo].
Proof.
  assert (Hids : NoDup (id <$> [A; B; photo])) by distinct_ids.
  split; [exact Hids|]. split; [reflexivity|].
  exact (removeFile_removes_that_record [A; B; photo] 1 B Hids eq_refl).
Defined.

Lemma handleDragEnd_moves_witness :
  NoDup (id <$> [A; B; photo])
  /\ [A; B; photo] !! 0 = Some A /\ [A; B; photo] !! 2 = Some photo /\ 0 <> 2
  /\ (exists items',
        handleDragEnd (mkDragEnd (id A) (Some (id photo))) [A; B; photo] = Some items'
        /\ items' !! 2 = Some A
        /\ delete 2 items' = delete 0 [A; B; photo]
        /\ length items' = length [A; B; photo])
  /\ handleDragEnd (mkDragEnd (id A) None) [A; B; photo] = Some [A; B; photo]
  /\ handleDragEnd (mkDragEnd (id A) (Some (id A))) [A; B; photo] = Some [A; B; photo].
Proof.
  assert (Hids : NoDup (id <$> [A; B; photo])) by distinct_ids.
  assert (Hne : 0 <> 2) by discriminate.
  split; [exact Hids|]. split; [reflexivity|]. split; [reflexivity|].
  split; [exact Hne|].
  exact (handleDragEnd_moves [A; B; photo] 0 2 A photo Hids eq_refl eq_refl Hne).
Defined.

Lemma drag_then_merge_rearranges_pages_witness :
  Forall processable [A; B; photo]
  /\ handleDragEnd (mkDragEnd "id-A" (Some "id-P")) [A; B; photo] = Some [B; photo; A]
  /\ doc_pages (st_mergedPdf (snd (generateMergedPdf [B; photo; A])))
     ≡ₚ doc_pages (st_mergedPdf (snd (generateMergedPdf [A; B; photo])))
  /\ fst (generateMergedPdf [B; photo; A])
     = saved (st_mergedPdf (snd (generateMergedPdf [B; photo; A]))).
Proof.
  assert (Hall : Forall processable [A; B; photo]) by all_get_past.
  split; [exact Hall|]. split; [reflexivity|].
  exact (drag_then_merge_rearranges_pages (mkDragEnd "id-A" (Some "id-P"))
           [A; B; photo] [B; photo; A] Hall eq_refl).
Defined.

Lemma merge_after_removing_record_witness :
  NoDup (id <$> ([A] ++ corrupt "scan.pdf" :: [B]))
  /\ Forall processable [A] /\ Forall processable [B]
  /\ removeFile (id (corrupt "scan.pdf")) ([A] ++ corrupt "scan.pdf" :: [B]) = [A] ++ [B]
  /\ fst (generateMergedPdf
            (removeFile (id (corrupt "scan.pdf")) ([A] ++ corrupt "scan.pdf" :: [B])))
     = saved (st_mergedPdf (snd (generateMergedPdf
                (removeFile (id (corrupt "scan.pdf")) ([A] ++ corrupt "scan.pdf" :: [B])))))
  /\ doc_pages (st_mergedPdf (snd (generateMergedPdf
                (removeFile (id (corrupt "scan.pdf")) ([A] ++ corrupt "scan.pdf" :: [B])))))
     = match concat (pagesOf <$> [A]) ++ concat (pagesOf <$> [B]) with
       | [] => [blankPage]
       | p :: pages => p :: pages
       end.
Proof.
  assert (Hids : NoDup (id <$> ([A] ++ corrupt "scan.pdf" :: [B]))) by distinct_ids.
  assert (H1 : Forall processable [A]) by all_get_past.
  assert (H2 : Forall processable [B]) by all_get_past.
  split; [exact Hids|]. split; [exact H1|]. split; [exact H2|].
  exact (merge_after_removing_record [A] [B] (corrupt "scan.pdf") Hids H1 H2).
Defined.

Lemma handleMerge_runs_once_witness :
  app_files listingB <> []
  /\ app_files (fst (handleMerge 1700000000000 listingB)) = app_files listingB
  /\ isProcessing (app_status (fst (handleMerge 1700000000000 listingB))) = false
  /\ (exists s0 rest,
        snd (handleMerge 1700000000000 listingB)
        = SetStatus s0 :: Delay 100 :: CallGenerateMergedPdf (app_files listingB) :: rest
        /\ isProcessing s0 = true /\ error s0 = None
        /\ forall files, CallGenerateMergedPdf files ∉ rest)
  /\ (exists before later,
        snd (handleMerge 1700000000000 listingB)
        = before ++ SetStatus (app_status (fst (handleMerge 1700000000000 listingB)))
                    :: later
        /\ forall s, SetStatus s ∉ later).
Proof.
  assert (Hne : app_files listingB <> []) by discriminate.
  split; [exact Hne|].
  exact (handleMerge_runs_once 1700000000000 listingB Hne).
Defined.

Lemma handleMerge_downloads_iff_merged_witness :
  app_files listingB <> []
  /\ (forall pdfBytes, fst (generateMergedPdf (app_files listingB)) = inr pdfBytes ->
       (exists before later,
           snd (handleMerge 1700000000000 listingB)
           = before ++ CallDownloadPdf pdfBytes (downloadName 1700000000000) :: later
           /\ (forall data filename, CallDownloadPdf data filename ∉ before)
           /\ (forall data filename, CallDownloadPdf data filename ∉ later))
       /\ (forall e, ConsoleError e ∉ snd (handleMerge 1700000000000 listingB))
       /\ error (app_status (fst (handleMerge 1700000000000 listingB))) = None)
  /\ (forall e, fst (generateMergedPdf (app_files listingB)) = inl e ->
        (forall data filename,
            CallDownloadPdf data filename ∉ snd (handleMerge 1700000000000 listingB))
        /\ ConsoleError e ∈ snd (handleMerge 1700000000000 listingB)
        /\ is_Some (error (app_status (fst (handleMerge 1700000000000 listingB))))
        /\ message (app_status (fst (handleMerge 1700000000000 listingB))) = "").
Proof.
  assert (Hne : app_files listingB <> []) by discriminate.
  split; [exact Hne|].
  exact (handleMerge_downloads_iff_merged 1700000000000 listingB Hne).
Defined.

End MoreExamples.
